(** * experiments/data_collection.py: the experiment-event logger

    A shallow embedding of [write_json_log], [capture_ai_interactions],
    [run_sonarqube_analysis] and [main], together with the parts of the
    Python runtime they call: [json.dump] with [indent=2], [os.makedirs],
    [os.path.join], [open(path, "w")], [print] and [datetime.utcnow]. *)

From Stdlib Require Import ZArith NArith Lia Decimal DecimalFacts DecimalPos DecimalN DecimalZ Ascii String.
From stdpp Require Import gmap list.

Local Open Scope N_scope.

(** ** Text

    A Python [str] is a sequence of code points; a code point is an [N].
    File contents are text as well: the files are opened with
    [encoding="utf-8"] and everything [json.dump] emits is ASCII. *)

Abbreviation pystr := (list N) (only parsing).

Definition str (s : string) : list N :=
  map N_of_ascii (list_ascii_of_string s).

Definition QUOTE : N := 34.
Definition BACKSLASH : N := 92.
Definition NEWLINE : N := 10.
Definition SLASH : N := 47.

(** ** Values

    The objects a record can hold.  [PyList] and [PyDict] keep their items
    in order; the keys of a dict are [str], as in every record the script
    builds.  [PyObject] is any object the encoder has no case for (a set,
    bytes, a datetime).  [PyBackRef] is a reference to a list or dict that
    encloses the position it occurs at: the unfolding of a cyclic
    structure along its first cycle. *)

Record pyfloat := PyFloatVal {
  fl_neg : bool;        (* sign *)
  fl_digits : list N;   (* the shortest decimal digits that identify the float *)
  fl_decpt : Z          (* position of the decimal point: 0.d1d2...dn * 10^decpt *)
}.

Local Unset Elimination Schemes.

Inductive pyval : Type :=
| PyNone
| PyBool (b : bool)
| PyInt (z : Z)
| PyFloat (x : pyfloat)
| PyStr (s : list N)
| PyList (l : list pyval)
| PyDict (d : list (list N * pyval))
| PyObject
| PyBackRef.

Local Set Elimination Schemes.

Inductive exn : Type :=
| TypeError     (* Object of type ... is not JSON serializable *)
| ValueError    (* Circular reference detected *)
| OSError.      (* FileNotFoundError, FileExistsError, NotADirectoryError, IsADirectoryError *)

(** ** json.encoder *)

(** [encode_basestring_ascii]: '\\u{0:04x}'.format(n) *)
Definition hex_digit (d : N) : N :=
  if d <? 10 then 48 + d else 87 + d.

Definition hex4 (n : N) : list N :=
  [hex_digit (n / 4096 mod 16); hex_digit (n / 256 mod 16);
   hex_digit (n / 16 mod 16); hex_digit (n mod 16)].

Definition u_escape (n : N) : list N :=
  BACKSLASH :: 117 :: hex4 n.

(** ESCAPE_ASCII matches a backslash, a quote and everything outside
    space..tilde; ESCAPE_DCT has the short escapes, the rest is \uXXXX, a
    surrogate pair above the basic plane. *)
Definition escape_char (c : N) : list N :=
  if c =? BACKSLASH then [BACKSLASH; BACKSLASH]
  else if c =? QUOTE then [BACKSLASH; QUOTE]
  else if c =? 8 then [BACKSLASH; 98]
  else if c =? 12 then [BACKSLASH; 102]
  else if c =? 10 then [BACKSLASH; 110]
  else if c =? 13 then [BACKSLASH; 114]
  else if c =? 9 then [BACKSLASH; 116]
  else if (32 <=? c) && (c <=? 126) then [c]
  else if c <? 0x10000 then u_escape c
  else
    let n := c - 0x10000 in
    let s1 := N.lor 0xd800 (N.land (N.shiftr n 10) 0x3ff) in
    let s2 := N.lor 0xdc00 (N.land n 0x3ff) in
    u_escape s1 ++ u_escape s2.

Definition encode_basestring_ascii (s : list N) : list N :=
  QUOTE :: concat (map escape_char s) ++ [QUOTE].

(** [int.__repr__] *)
Fixpoint uint_digits (u : Decimal.uint) : list N :=
  match u with
  | Nil => []
  | D0 u => 48 :: uint_digits u
  | D1 u => 49 :: uint_digits u
  | D2 u => 50 :: uint_digits u
  | D3 u => 51 :: uint_digits u
  | D4 u => 52 :: uint_digits u
  | D5 u => 53 :: uint_digits u
  | D6 u => 54 :: uint_digits u
  | D7 u => 55 :: uint_digits u
  | D8 u => 56 :: uint_digits u
  | D9 u => 57 :: uint_digits u
  end.

Definition int_repr (z : Z) : list N :=
  match Z.to_int z with
  | Decimal.Pos u => uint_digits u
  | Decimal.Neg u => 45 :: uint_digits u
  end.

(** [float.__repr__]: format_float_short in mode 'r' with ADD_DOT_0.
    The exponent is printed as "%+.02d". *)
Definition exp_repr (e : Z) : list N :=
  let ds := uint_digits (N.to_uint (Z.abs_N e)) in
  (if (e <? 0)%Z then 45 else 43) ::
  (if (Z.abs e <? 10)%Z then 48 :: ds else ds).

Definition float_repr (x : pyfloat) : list N :=
  let digits := map (N.add 48) (fl_digits x) in
  let n := Z.of_nat (length digits) in
  let use_exp := ((fl_decpt x <=? -4) || (16 <? fl_decpt x))%Z in
  let decpt := if use_exp then 1%Z else fl_decpt x in
  let body :=
    if (decpt <=? 0)%Z then
      48 :: 46 :: replicate (Z.to_nat (- decpt)) 48 ++ digits
    else if (decpt <? n)%Z then
      take (Z.to_nat decpt) digits ++ 46 :: drop (Z.to_nat decpt) digits
    else
      digits ++ replicate (Z.to_nat (decpt - n)) 48 ++
      (if use_exp then [] else [46; 48]) in
  (if fl_neg x then [45] else []) ++ body ++
  (if use_exp then 101 :: exp_repr (fl_decpt x - 1) else []).

(** A generator of text that may raise: what was yielded, and the
    exception that ended it, if any. *)
Definition gen : Type := list N * option exn.

Definition yield (s : list N) : gen := (s, None).
Definition gen_raise (e : exn) : gen := ([], Some e).
Definition gen_seq (g1 g2 : gen) : gen :=
  match g1 with
  | (t1, None) => (t1 ++ fst g2, snd g2)
  | (t1, Some e) => (t1, Some e)
  end.

Notation "g1 ;;; g2" := (gen_seq g1 g2) (at level 62, right associativity).

(** _indent * _current_indent_level, with _indent = ' ' * 2 *)
Definition newline_indent (level : nat) : list N :=
  NEWLINE :: replicate (2 * level) 32.

(** The loop over the items of a list or a dict: the separator before
    every item but the first. *)
Fixpoint iterencode_items {A} (encode : A -> gen) (separator : list N)
    (first : bool) (l : list A) : gen :=
  match l with
  | [] => yield []
  | item :: l' =>
      (if first then yield [] else yield separator) ;;;
      encode item ;;;
      iterencode_items encode separator false l'
  end.

(** [_make_iterencode] with indent=2, item separator ",", key separator
    ": ", check_circular, no sort_keys, the default [default].  The three
    mutually recursive generators [_iterencode], [_iterencode_list] and
    [_iterencode_dict] are one function here; [level] is
    [_current_indent_level]. *)
Fixpoint iterencode (o : pyval) (level : nat) : gen :=
  match o with
  | PyStr s => yield (encode_basestring_ascii s)
  | PyNone => yield (str "null")
  | PyBool true => yield (str "true")
  | PyBool false => yield (str "false")
  | PyInt z => yield (int_repr z)
  | PyFloat x => yield (float_repr x)
  | PyList lst =>
      match lst with
      | [] => yield (str "[]")
      | _ =>
          yield (str "[") ;;; yield (newline_indent (S level)) ;;;
          iterencode_items (fun value => iterencode value (S level))
                           (str "," ++ newline_indent (S level)) true lst ;;;
          yield (newline_indent level) ;;; yield (str "]")
      end
  | PyDict dct =>
      match dct with
      | [] => yield (str "{}")
      | _ =>
          yield (str "{") ;;; yield (newline_indent (S level)) ;;;
          iterencode_items
            (fun item =>
               yield (encode_basestring_ascii (fst item)) ;;;
               yield (str ": ") ;;;
               iterencode (snd item) (S level))
            (str "," ++ newline_indent (S level)) true dct ;;;
          yield (newline_indent level) ;;; yield (str "}")
      end
  | PyObject => gen_raise TypeError
  | PyBackRef => gen_raise ValueError
  end.

(** [json.dump(obj, fp, indent=2)]: the chunks of [iterencode(obj)], each
    written to [fp] as it is produced. *)
Definition json_iterencode (o : pyval) : gen := iterencode o 0.

(** ** json.decoder and json.scanner

    [None] stands for JSONDecodeError.  The constants NaN, Infinity and
    -Infinity decode to floats that are not finite, which [pyfloat] does
    not have: they are [None] here as well. *)

Definition is_ws (c : N) : bool :=
  (c =? 32) || (c =? 9) || (c =? 10) || (c =? 13).

(** WHITESPACE.match(s, end).end() *)
Fixpoint skip_ws (s : list N) : list N :=
  match s with
  | c :: s' => if is_ws c then skip_ws s' else s
  | [] => []
  end.

Fixpoint strip_prefix (p s : list N) : option (list N) :=
  match p, s with
  | [], _ => Some s
  | a :: p', b :: s' => if a =? b then strip_prefix p' s' else None
  | _ :: _, [] => None
  end.

(** int(esc, 16) on one digit of HEXDIGITS *)
Definition hex_val (c : N) : option N :=
  if (48 <=? c) && (c <=? 57) then Some (c - 48)
  else if (97 <=? c) && (c <=? 102) then Some (c - 87)
  else if (65 <=? c) && (c <=? 70) then Some (c - 55)
  else None.

Definition decode_hex4 (a b c d : N) : option N :=
  match hex_val a, hex_val b, hex_val c, hex_val d with
  | Some x, Some y, Some z, Some t => Some (((x * 16 + y) * 16 + z) * 16 + t)
  | _, _, _, _ => None
  end.

(** The table BACKSLASH of the decoder *)
Definition backslash_char (esc : N) : option N :=
  if esc =? QUOTE then Some QUOTE
  else if esc =? BACKSLASH then Some BACKSLASH
  else if esc =? SLASH then Some SLASH
  else if esc =? 98 then Some 8
  else if esc =? 102 then Some 12
  else if esc =? 110 then Some 10
  else if esc =? 114 then Some 13
  else if esc =? 116 then Some 9
  else None.

Definition cons_chunk (c : N) (r : option (list N * list N)) : option (list N * list N) :=
  match r with
  | Some (t, rest) => Some (c :: t, rest)
  | None => None
  end.

(** [scanstring(s, end, strict=True)], entered after the opening quote:
    the decoded string and what follows the closing quote. *)
Fixpoint scanstring (s : list N) : option (list N * list N) :=
  match s with
  | [] => None
  | c :: s1 =>
      if c =? QUOTE then Some ([], s1)
      else if c =? BACKSLASH then
        match s1 with
        | [] => None
        | esc :: s2 =>
            if esc =? 117 then
              match s2 with
              | h1 :: h2 :: h3 :: h4 :: s3 =>
                  match decode_hex4 h1 h2 h3 h4 with
                  | None => None
                  | Some uni =>
                      if (0xd800 <=? uni) && (uni <=? 0xdbff) then
                        match s3 with
                        | b :: u :: s4 =>
                            if (b =? BACKSLASH) && (u =? 117) then
                              match s4 with
                              | g1 :: g2 :: g3 :: g4 :: s5 =>
                                  match decode_hex4 g1 g2 g3 g4 with
                                  | None => None
                                  | Some uni2 =>
                                      if (0xdc00 <=? uni2) && (uni2 <=? 0xdfff) then
                                        cons_chunk
                                          (0x10000 + N.lor (N.shiftl (uni - 0xd800) 10) (uni2 - 0xdc00))
                                          (scanstring s5)
                                      else cons_chunk uni (scanstring s3)
                                  end
                              | _ => None
                              end
                            else cons_chunk uni (scanstring s3)
                        | _ => cons_chunk uni (scanstring s3)
                        end
                      else cons_chunk uni (scanstring s3)
                  end
              | _ => None
              end
            else
              match backslash_char esc with
              | Some ch => cons_chunk ch (scanstring s2)
              | None => None
              end
        end
      else if c <? 32 then None
      else cons_chunk c (scanstring s1)
  end.

Definition is_digit (c : N) : bool := (48 <=? c) && (c <=? 57).

(** A run of digits 0-9: the digits matched and what follows them. *)
Fixpoint scan_digits (s : list N) : list N * list N :=
  match s with
  | c :: s' =>
      if is_digit c then
        let '(ds, r) := scan_digits s' in (c :: ds, r)
      else ([], s)
  | [] => ([], [])
  end.

(** What NUMBER_RE matched: the groups integer, frac and exp, as the sign,
    the digits of the integer part, the digits after the point, and the
    sign and digits of the exponent. *)
Record number_match := NumberMatch {
  nm_neg : bool;
  nm_int : list N;
  nm_frac : option (list N);
  nm_exp : option (bool * list N)
}.

(** The group integer of NUMBER_RE: an optional minus, then a lone zero
    or a digit that is not zero followed by digits. *)
Definition match_integer (s : list N) : option (bool * list N * list N) :=
  let '(neg, s1) :=
    match s with
    | c :: s' => if c =? 45 then (true, s') else (false, s)
    | [] => (false, s)
    end in
  match s1 with
  | c :: s2 =>
      if c =? 48 then Some (neg, [c], s2)
      else if is_digit c then
        let '(ds, r) := scan_digits s2 in Some (neg, c :: ds, r)
      else None
  | [] => None
  end.

(** The group frac: a point and at least one digit, or nothing. *)
Definition match_frac (s : list N) : option (list N) * list N :=
  match s with
  | c :: s' =>
      if c =? 46 then
        match scan_digits s' with
        | ([], _) => (None, s)
        | (ds, r) => (Some ds, r)
        end
      else (None, s)
  | [] => (None, s)
  end.

(** The group exp: e or E, an optional sign and at least one digit, or
    nothing. *)
Definition match_exp (s : list N) : option (bool * list N) * list N :=
  match s with
  | c :: s' =>
      if (c =? 101) || (c =? 69) then
        let '(neg, s1) :=
          match s' with
          | d :: s'' =>
              if d =? 45 then (true, s'')
              else if d =? 43 then (false, s'')
              else (false, s')
          | [] => (false, s')
          end in
        match scan_digits s1 with
        | ([], _) => (None, s)
        | (ds, r) => (Some (neg, ds), r)
        end
      else (None, s)
  | [] => (None, s)
  end.

Definition match_number (s : list N) : option (number_match * list N) :=
  match match_integer s with
  | None => None
  | Some (neg, ip, r1) =>
      let '(fp, r2) := match_frac r1 in
      let '(ex, r3) := match_exp r2 in
      Some (NumberMatch neg ip fp ex, r3)
  end.

Fixpoint digits_uint (ds : list N) : Decimal.uint :=
  match ds with
  | [] => Nil
  | c :: ds' =>
      let u := digits_uint ds' in
      if c =? 48 then D0 u else if c =? 49 then D1 u
      else if c =? 50 then D2 u else if c =? 51 then D3 u
      else if c =? 52 then D4 u else if c =? 53 then D5 u
      else if c =? 54 then D6 u else if c =? 55 then D7 u
      else if c =? 56 then D8 u else D9 u
  end.

(** [int(integer)] *)
Definition parse_int (neg : bool) (ds : list N) : Z :=
  Z.of_int (if neg then Decimal.Neg (digits_uint ds) else Decimal.Pos (digits_uint ds)).

(** Drop the zeros at the head, counting them. *)
Fixpoint strip_zeros (ds : list N) : nat * list N :=
  match ds with
  | d :: ds' =>
      if d =? 0 then let '(k, r) := strip_zeros ds' in (S k, r)
      else (O, ds)
  | [] => (O, [])
  end.

(** [float(integer + frac + exp)].  A float is kept as the shortest
    decimal that names it, so the literal is brought to that form: its
    digits without the zeros at either end, and the place of the point.
    For the literals [float_repr] prints this is the float printed. *)
Definition parse_float (m : number_match) : pyfloat :=
  let ip := map (fun c => c - 48) (nm_int m) in
  let fp := map (fun c => c - 48) (default [] (nm_frac m)) in
  let e := match nm_exp m with
           | Some (neg, ds) =>
               let a := Z.of_N (N.of_uint (digits_uint ds)) in
               if neg then (- a)%Z else a
           | None => 0%Z
           end in
  let '(k, ds1) := strip_zeros (ip ++ fp) in
  let ds2 := rev (snd (strip_zeros (rev ds1))) in
  match ds2 with
  | [] => PyFloatVal (nm_neg m) [0] 1
  | _ => PyFloatVal (nm_neg m) ds2 (Z.of_nat (length ip) - Z.of_nat k + e)
  end.

(** [dict(pairs)]: a later pair with a key seen before replaces the value
    and keeps the place. *)
Fixpoint dict_set (d : list (list N * pyval)) (k : list N) (v : pyval)
  : list (list N * pyval) :=
  match d with
  | [] => [(k, v)]
  | (k', v') :: d' =>
      if bool_decide (k = k') then (k, v) :: d' else (k', v') :: dict_set d' k v
  end.

Definition dict_of_pairs (pairs : list (list N * pyval)) : list (list N * pyval) :=
  fold_left (fun d kv => dict_set d (fst kv) (snd kv)) pairs [].

(** The loop of JSONArray, entered at a value. *)
Fixpoint array_items (scan : list N -> option (pyval * list N)) (n : nat)
    (s : list N) : option (list pyval * list N) :=
  match n with
  | O => None
  | S n' =>
      match scan s with
      | None => None
      | Some (value, r) =>
          match skip_ws r with
          | c :: r' =>
              if c =? 93 then Some ([value], r')
              else if c =? 44 then
                match array_items scan n' (skip_ws r') with
                | Some (values, r'') => Some (value :: values, r'')
                | None => None
                end
              else None
          | [] => None
          end
      end
  end.

(** The loop of JSONObject, entered after the quote that opens a key. *)
Fixpoint object_pairs (scan : list N -> option (pyval * list N)) (n : nat)
    (s : list N) : option (list (list N * pyval) * list N) :=
  match n with
  | O => None
  | S n' =>
      match scanstring s with
      | None => None
      | Some (key, r) =>
          match skip_ws r with
          | c :: r1 =>
              if c =? 58 then
                match scan (skip_ws r1) with
                | None => None
                | Some (value, r2) =>
                    match skip_ws r2 with
                    | d :: r3 =>
                        if d =? 125 then Some ([(key, value)], r3)
                        else if d =? 44 then
                          match skip_ws r3 with
                          | q :: r4 =>
                              if q =? QUOTE then
                                match object_pairs scan n' r4 with
                                | Some (pairs, r5) => Some ((key, value) :: pairs, r5)
                                | None => None
                                end
                              else None
                          | [] => None
                          end
                        else None
                    | [] => None
                    end
                end
              else None
          | [] => None
          end
      end
  end.

(** [_scan_once] of py_make_scanner.  [fuel] bounds the nesting and the
    number of items; the text's length is always enough. *)
Fixpoint scan_once (fuel : nat) (s : list N) : option (pyval * list N) :=
  match fuel with
  | O => None
  | S fuel' =>
      match s with
      | [] => None
      | nextchar :: s' =>
          if nextchar =? QUOTE then
            match scanstring s' with
            | Some (t, r) => Some (PyStr t, r)
            | None => None
            end
          else if nextchar =? 123 then
            match skip_ws s' with
            | c :: r =>
                if c =? 125 then Some (PyDict [], r)
                else if c =? QUOTE then
                  match object_pairs (scan_once fuel') fuel' r with
                  | Some (pairs, r') => Some (PyDict (dict_of_pairs pairs), r')
                  | None => None
                  end
                else None
            | [] => None
            end
          else if nextchar =? 91 then
            match skip_ws s' with
            | c :: r =>
                if c =? 93 then Some (PyList [], r)
                else
                  match array_items (scan_once fuel') fuel' (c :: r) with
                  | Some (values, r') => Some (PyList values, r')
                  | None => None
                  end
            | [] => None
            end
          else
            match strip_prefix (str "null") s, strip_prefix (str "true") s,
                  strip_prefix (str "false") s with
            | Some r, _, _ => Some (PyNone, r)
            | _, Some r, _ => Some (PyBool true, r)
            | _, _, Some r => Some (PyBool false, r)
            | None, None, None =>
                match match_number s with
                | Some (m, r) =>
                    match nm_frac m, nm_exp m with
                    | None, None => Some (PyInt (parse_int (nm_neg m) (nm_int m)), r)
                    | _, _ => Some (PyFloat (parse_float m), r)
                    end
                | None => None
                end
            end
      end
  end.

(** [json.loads(s)]: [decode] skips white space, scans one value, skips
    white space and wants the end of the text. *)
Definition json_loads (s : list N) : option pyval :=
  match s with
  | 0xfeff :: _ => None
  | _ =>
      match scan_once (S (length s)) (skip_ws s) with
      | Some (obj, r) =>
          match skip_ws r with
          | [] => Some obj
          | _ :: _ => None
          end
      | None => None
      end
  end.

(** ** The world: a POSIX file tree, the console and the clock

    A directory or file is named by its components from the root.  The
    root always exists; [dirs] are the other directories, [files] the
    regular files with their text.  Permissions, links and quotas are not
    part of the model: every directory is writable. *)
Record world := World {
  cwd : list (list N);
  dirs : gset (list (list N));
  files : gmap (list (list N)) (list N);
  stdout : list (list N);
  clock : nat -> list N;   (* the readings of datetime.utcnow().isoformat() *)
  ticks : nat              (* how many readings were taken *)
}.

Definition with_dirs (d : gset (list (list N))) (w : world) : world :=
  World (cwd w) d (files w) (stdout w) (clock w) (ticks w).
Definition with_files (f : gmap (list (list N)) (list N)) (w : world) : world :=
  World (cwd w) (dirs w) f (stdout w) (clock w) (ticks w).
Definition with_stdout (o : list (list N)) (w : world) : world :=
  World (cwd w) (dirs w) (files w) o (clock w) (ticks w).
Definition with_ticks (n : nat) (w : world) : world :=
  World (cwd w) (dirs w) (files w) (stdout w) (clock w) n.

Inductive result (A : Type) : Type :=
| Ok (a : A)
| Raise (e : exn).
Arguments Ok {A} a.
Arguments Raise {A} e.

(** Statements: a world in, a value or an exception and a world out. *)
Definition M (A : Type) : Type := world -> result A * world.

Definition ret {A} (a : A) : M A := fun w => (Ok a, w).
Definition raise {A} (e : exn) : M A := fun w => (Raise e, w).
Definition bind {A B} (m : M A) (k : A -> M B) : M B := fun w =>
  match m w with
  | (Ok a, w') => k a w'
  | (Raise e, w') => (Raise e, w')
  end.

Notation "x <- m ;; k" := (bind m (fun x => k))
  (at level 100, m at next level, right associativity).
Notation "m ;; k" := (bind m (fun _ => k))
  (at level 100, right associativity).

(** [path.split('/')] *)
Fixpoint split_sep (p : list N) : list (list N) :=
  match p with
  | [] => [[]]
  | c :: p' =>
      if c =? SLASH then [] :: split_sep p'
      else match split_sep p' with
           | [] => [[c]]
           | h :: t => (c :: h) :: t
           end
  end.

Definition is_here (c : list N) : bool :=
  bool_decide (c = []) || bool_decide (c = [46]).
Definition is_parent (c : list N) : bool :=
  bool_decide (c = [46; 46]).

Definition is_dir (w : world) (p : list (list N)) : bool :=
  bool_decide (p = []) || bool_decide (p ∈ dirs w).
Definition is_file (w : world) (p : list (list N)) : bool :=
  bool_decide (is_Some (files w !! p)).

(** Where the resolution of a path starts: the root for an absolute path,
    the working directory otherwise. *)
Definition start (w : world) (p : list N) : list (list N) :=
  match p with
  | c :: _ => if c =? SLASH then [] else cwd w
  | [] => cwd w
  end.

(** Path resolution: follow the components through existing directories. *)
Fixpoint walk (w : world) (cur : list (list N)) (cs : list (list N))
  : option (list (list N)) :=
  match cs with
  | [] => Some cur
  | c :: cs' =>
      if is_here c then walk w cur cs'
      else if is_parent c then walk w (removelast cur) cs'
      else if is_dir w (cur ++ [c]) then walk w (cur ++ [c]) cs'
      else None
  end.

(** [os.makedirs(name, exist_ok=True)]: like the resolution, but a
    missing component is created; a regular file in the way is an error. *)
Fixpoint makedirs_from (cur : list (list N)) (cs : list (list N)) : M unit :=
  match cs with
  | [] => ret tt
  | c :: cs' =>
      if is_here c then makedirs_from cur cs'
      else if is_parent c then makedirs_from (removelast cur) cs'
      else fun w =>
        if is_dir w (cur ++ [c]) then makedirs_from (cur ++ [c]) cs' w
        else if is_file w (cur ++ [c]) then (Raise OSError, w)
        else makedirs_from (cur ++ [c]) cs' (with_dirs ({[cur ++ [c]]} ∪ dirs w) w)
  end.

Definition os_makedirs (name : list N) : M unit := fun w =>
  match name with
  | [] => (Raise OSError, w)
  | _ => makedirs_from (start w name) (split_sep name) w
  end.

(** [os.path.join(a, b)] of posixpath *)
Definition os_path_join (a b : list N) : list N :=
  match b with
  | c :: _ =>
      if c =? SLASH then b
      else if bool_decide (a = []) || bool_decide (last a = Some SLASH) then a ++ b
      else a ++ SLASH :: b
  | [] =>
      if bool_decide (a = []) || bool_decide (last a = Some SLASH) then a ++ b
      else a ++ SLASH :: b
  end.

(** Where [path] names a file that can be opened for writing: its parent
    directory exists and the name is not that of a directory. *)
Definition resolve_file (w : world) (path : list N) : option (list (list N)) :=
  let cs := split_sep path in
  match walk w (start w path) (removelast cs) with
  | None => None
  | Some parent =>
      match last cs with
      | None => None
      | Some name =>
          if is_here name || is_parent name then None
          else if is_dir w (parent ++ [name]) then None
          else Some (parent ++ [name])
      end
  end.

(** [open(path, "w", encoding="utf-8")]: the file is created, or
    truncated when it exists.  The handle is the file's name. *)
Definition open_w (path : list N) : M (list (list N)) := fun w =>
  match resolve_file w path with
  | None => (Raise OSError, w)
  | Some f => (Ok f, with_files (<[f := []]> (files w)) w)
  end.

(** [fp.write(s)] *)
Definition fp_write (f : list (list N)) (s : list N) : M unit := fun w =>
  (Ok tt, with_files (<[f := default [] (files w !! f) ++ s]> (files w)) w).

(** [json.dump(obj, fp, indent=2)]: what was yielded before an exception
    has been written when the exception arrives. *)
Definition json_dump (o : pyval) (f : list (list N)) : M unit :=
  let '(text, r) := json_iterencode o in
  fp_write f text ;;
  match r with
  | None => ret tt
  | Some e => raise e
  end.

Definition print (line : list N) : M unit := fun w =>
  (Ok tt, with_stdout (stdout w ++ [line]) w).

(** [datetime.utcnow().isoformat()] *)
Definition utcnow_isoformat : M (list N) := fun w =>
  (Ok (clock w (ticks w)), with_ticks (S (ticks w)) w).

(** ** experiments/data_collection.py *)

Definition F_85_0 : pyfloat := PyFloatVal false [8; 5] 2.
Definition F_1_2 : pyfloat := PyFloatVal false [1; 2] 1.

Definition run_sonarqube_analysis (repo_path project_key token : list N)
  : list (list N * pyval) :=
  [ (str "code_smells", PyInt 10);
    (str "bugs", PyInt 0);
    (str "vulnerabilities", PyInt 0);
    (str "coverage", PyFloat F_85_0);
    (str "duplicated_lines_density", PyFloat F_1_2) ].

Definition capture_ai_interactions (prompt response : list N)
  : M (list (list N * pyval)) :=
  now <- utcnow_isoformat ;;
  ret [ (str "timestamp", PyStr now);
        (str "prompt", PyStr prompt);
        (str "response", PyStr response) ].

Definition write_json_log (data : list (list N * pyval))
    (output_dir filename : list N) : M pyval :=
  os_makedirs output_dir ;;
  let path := os_path_join output_dir filename in
  f <- open_w path ;;
  json_dump (PyDict data) f ;;
  print (str "[info] Wrote log to " ++ path) ;;
  ret PyNone.

Definition main (repo_path output_dir : list N) : M pyval :=
  print (str "[info] Starting data collection for repository: " ++ repo_path) ;;
  now <- utcnow_isoformat ;;
  let commit_metadata :=
    [ (str "commit_hash", PyStr (str "abc123"));
      (str "author", PyStr (str "developer@example.com"));
      (str "timestamp", PyStr now);
      (str "message", PyStr (str "Implement feature X"));
      (str "files_changed", PyList [PyStr (str "src/module.py")]) ] in
  write_json_log commit_metadata output_dir (str "commit_metadata.json") ;;
  let sonar_metrics :=
    run_sonarqube_analysis repo_path (str "PROJECT_KEY") (str "TOKEN") in
  write_json_log sonar_metrics output_dir (str "sonar_metrics.json") ;;
  ai_log <- capture_ai_interactions
              (str "How to implement a binary search?")
              (str "Here is a Python implementation of binary search...") ;;
  write_json_log ai_log output_dir (str "ai_interactions.json") ;;
  let coverage :=
    [ (str "total_lines", PyInt 1000);
      (str "covered_lines", PyInt 850);
      (str "coverage_percent", PyFloat F_85_0) ] in
  write_json_log coverage output_dir (str "coverage.json") ;;
  print (str "[info] Data collection completed.") ;;
  ret PyNone.

(** The world a call leaves when the directories are there and the file
    can be opened: [text] is in the file, and on success the notice is on
    the console. *)
Definition written (w1 : world) (f : list (list N)) (text : list N) : world :=
  with_files (<[f := text]> (files w1)) w1.

Definition noticed (w : world) (path : list N) : world :=
  with_stdout (stdout w ++ [str "[info] Wrote log to " ++ path]) w.

(** ** Reading a document back

    [json.load(open(path, encoding="utf-8"))], the way a reader of the
    logs gets a record back; JSONDecodeError is a ValueError. *)
Definition read_text (path : list N) : M (list N) := fun w =>
  match resolve_file w path with
  | Some f =>
      match files w !! f with
      | Some text => (Ok text, w)
      | None => (Raise OSError, w)
      end
  | None => (Raise OSError, w)
  end.

Definition json_load_path (path : list N) : M pyval :=
  text <- read_text path ;;
  match json_loads text with
  | Some obj => ret obj
  | None => raise ValueError
  end.

(** [d[k]] *)
Fixpoint dict_get (d : list (list N * pyval)) (k : list N) : option pyval :=
  match d with
  | [] => None
  | (k', v) :: d' => if bool_decide (k = k') then Some v else dict_get d' k
  end.

(** ** Records

    A Record of the data model: string keys, and values that are strings,
    numbers, booleans, null, or lists and mappings of such.  A [str] is
    Unicode text (code points that are scalar values), a float is finite
    and carried by its shortest digits, and a dict has each key once. *)
Definition scalar_value (c : N) : bool :=
  (c <? 0xd800) || ((0xe000 <=? c) && (c <? 0x110000)).

Definition text_ok (s : list N) : bool := forallb scalar_value s.

Definition float_ok (x : pyfloat) : bool :=
  forallb (fun d => d <? 10) (fl_digits x) &&
  match fl_digits x with
  | [] => false
  | [0] => (fl_decpt x =? 1)%Z
  | d :: ds => negb (d =? 0) && negb (bool_decide (last (d :: ds) = Some 0))
  end.

Fixpoint json_like (v : pyval) : bool :=
  match v with
  | PyNone | PyBool _ | PyInt _ => true
  | PyFloat x => float_ok x
  | PyStr s => text_ok s
  | PyList l => forallb json_like l
  | PyDict d =>
      forallb (fun kv => text_ok (fst kv) && json_like (snd kv)) d &&
      bool_decide (NoDup (map fst d))
  | PyObject | PyBackRef => false
  end.

Definition valid_record (data : list (list N * pyval)) : bool :=
  json_like (PyDict data).

(** ** The layout of a document, as the specification words it

    A pretty-printed document: an empty list or mapping is a pair of
    brackets; the items of any other stand one per line, two spaces deeper
    than the line that opens it, in the order the record has them, with a
    comma after each but the last; a key and its value are separated by a
    colon and a space. *)
Fixpoint join_with (sep : list N) (parts : list (list N)) : list N :=
  match parts with
  | [] => []
  | [p] => p
  | p :: ps => p ++ sep ++ join_with sep ps
  end.

Definition indentation (level : nat) : list N := replicate (2 * level) 32.

Fixpoint pretty (level : nat) (v : pyval) : list N :=
  match v with
  | PyNone => str "null"
  | PyBool true => str "true"
  | PyBool false => str "false"
  | PyInt z => int_repr z
  | PyFloat x => float_repr x
  | PyStr s => encode_basestring_ascii s
  | PyList [] => str "[]"
  | PyList l =>
      str "[" ++ [NEWLINE] ++ indentation (S level) ++
      join_with (str "," ++ [NEWLINE] ++ indentation (S level))
                (map (pretty (S level)) l) ++
      [NEWLINE] ++ indentation level ++ str "]"
  | PyDict [] => str "{}"
  | PyDict d =>
      str "{" ++ [NEWLINE] ++ indentation (S level) ++
      join_with (str "," ++ [NEWLINE] ++ indentation (S level))
                (map (fun kv => encode_basestring_ascii (fst kv) ++ str ": " ++
                                pretty (S level) (snd kv)) d) ++
      [NEWLINE] ++ indentation level ++ str "}"
  | PyObject | PyBackRef => []
  end.

(** ** The directories a path names

    The directories [os.makedirs] goes through, in order: each component
    that is a name, under the directory reached so far. *)
Fixpoint visited (cur : list (list N)) (cs : list (list N)) : list (list (list N)) :=
  match cs with
  | [] => []
  | c :: cs' =>
      if is_here c then visited cur cs'
      else if is_parent c then visited (removelast cur) cs'
      else (cur ++ [c]) :: visited (cur ++ [c]) cs'
  end.

Definition output_dirs (w : world) (output_dir : list N) : list (list (list N)) :=
  visited (start w output_dir) (split_sep output_dir).

(** The documents of one run of [main]. *)
Definition log_names : list (list N) :=
  [ str "commit_metadata.json"; str "sonar_metrics.json";
    str "ai_interactions.json"; str "coverage.json" ].

(** A name of a file in a directory: not empty, no separator in it, and
    neither of the two names every directory has. *)
Definition plain_name (name : list N) : bool :=
  negb (bool_decide (name = [])) && negb (bool_decide (SLASH ∈ name)) &&
  negb (is_here name) && negb (is_parent name).

(** Where a number can end: not before a digit, a point or an e. *)
Definition number_end (rest : list N) : Prop :=
  match rest with
  | [] => True
  | c :: _ => is_digit c = false /\ c <> 46 /\ c <> 101 /\ c <> 69
  end.

(** The text of a number, from the groups of its match. *)
Definition number_text (m : number_match) : list N :=
  (if nm_neg m then [45] else []) ++ nm_int m ++
  match nm_frac m with
  | Some fs => 46 :: fs
  | None => []
  end ++
  match nm_exp m with
  | Some (neg, es) => 101 :: (if neg then 45 else 43) :: es
  | None => []
  end.

Definition digits_ok (ds : list N) : Prop :=
  ds <> [] /\ Forall (fun c => is_digit c = true) ds.

(** The groups NUMBER_RE can match: an integer part that is a lone zero
    or does not start with a zero, and digits wherever there is a group. *)
Definition match_ok (m : number_match) : Prop :=
  digits_ok (nm_int m) /\
  (nm_int m = [48] \/ head (nm_int m) <> Some 48) /\
  match nm_frac m with Some fs => digits_ok fs | None => True end /\
  match nm_exp m with Some (_, es) => digits_ok es | None => True end.

(** The nodes of a value, each item of a list or dict counted once more:
    a bound on the fuel the scanner needs for its text. *)
Fixpoint nodes (v : pyval) : nat :=
  match v with
  | PyList l => S (list_sum (map (fun a => S (nodes a)) l))
  | PyDict d => S (list_sum (map (fun kv => S (nodes (snd kv))) d))
  | _ => 1
  end.

(** The characters a JSON value can start with. *)
Definition value_start (c : N) : bool :=
  is_digit c || (c =? 45) || (c =? QUOTE) || (c =? 123) || (c =? 91) ||
  (c =? 110) || (c =? 116) || (c =? 102).

(** Two worlds that differ at most in what is on the console. *)
Definition same_tree (w1 w2 : world) : Prop :=
  cwd w1 = cwd w2 /\ dirs w1 = dirs w2 /\ files w1 = files w2 /\
  clock w1 = clock w2 /\ ticks w1 = ticks w2.

(** A statement that does not read the console: from two worlds that
    differ at most there it gives the same result, and worlds that
    differ at most there. *)
Definition console_blind {A} (m : M A) : Prop :=
  forall w1 w2, same_tree w1 w2 ->
    fst (m w1) = fst (m w2) /\ same_tree (snd (m w1)) (snd (m w2)).

(** The two records [main] builds around a reading of the clock. *)
Definition commit_metadata_at (now : list N) : list (list N * pyval) :=
  [ (str "commit_hash", PyStr (str "abc123"));
    (str "author", PyStr (str "developer@example.com"));
    (str "timestamp", PyStr now);
    (str "message", PyStr (str "Implement feature X"));
    (str "files_changed", PyList [PyStr (str "src/module.py")]) ].

Definition ai_log_at (now : list N) : list (list N * pyval) :=
  [ (str "timestamp", PyStr now);
    (str "prompt", PyStr (str "How to implement a binary search?"));
    (str "response", PyStr (str "Here is a Python implementation of binary search...")) ].

(** Text that is ASCII. *)
Definition ascii_text (t : list N) : Prop := Forall (fun c => c < 128) t.

(** ** Sample worlds and records *)

Definition sample_clock (n : nat) : list N :=
  str "2024-05-01T10:00:0" ++ [48 + N.of_nat (n mod 10)].

(** An empty tree with /home as the working directory. *)
Definition w_home : world :=
  World [str "home"] {[ [str "home"] ]} ∅ [] sample_clock 0.

(** The same with the directory /home/out/sub in it. *)
Definition w_sub : world :=
  World [str "home"]
        {[ [str "home"]; [str "home"; str "out"]; [str "home"; str "out"; str "sub"] ]}
        ∅ [] sample_clock 0.

Definition sample_record : list (list N * pyval) :=
  [ (str "name", PyStr (233 :: 0x1f600 :: QUOTE :: str " tab" ++ [9]));
    (str "runs", PyList [PyInt 3; PyInt (-12); PyInt 0]);
    (str "ok", PyBool true);
    (str "ratio", PyFloat (PyFloatVal true [2; 5] (-5)));
    (str "nested", PyDict [(str "empty", PyList []); (str "none", PyNone)]) ].

(** d = {"a": 1}; d["self"] = d *)
Definition cyclic_record : list (list N * pyval) :=
  [ (str "a", PyInt 1); (str "self", PyBackRef) ].

Definition coverage_record : list (list N * pyval) :=
  [ (str "total_lines", PyInt 1000);
    (str "covered_lines", PyInt 850);
    (str "coverage_percent", PyFloat F_85_0) ].

(** Splits [match_ok] into its five parts. *)
Ltac match_ok_split :=
  unfold match_ok, digits_ok; cbn [nm_int nm_frac nm_exp];
  refine (conj (conj _ _) (conj _ (conj _ _))).

(** * Properties *)

#[local] Set Warnings "-clear-no-such-hyp".

(** ** The file tree *)

Lemma is_dir_spec (w : world) (p : list (list N)) :
  is_dir w p = true <-> p = [] \/ p ∈ dirs w.
Proof.
  unfold is_dir. rewrite orb_true_iff, !bool_decide_eq_true. tauto.
Qed.

Lemma is_dir_child (w : world) (cur : list (list N)) (c : list N) :
  is_dir w (cur ++ [c]) = true <-> cur ++ [c] ∈ dirs w.
Proof.
  rewrite is_dir_spec. split; [intros [H | H]; [| done] | by right].
  by destruct cur.
Qed.

Lemma is_dir_ext (w w' : world) (p : list (list N)) :
  dirs w = dirs w' -> is_dir w p = is_dir w' p.
Proof. unfold is_dir. by intros ->. Qed.

Lemma with_dirs_same (w : world) : with_dirs (dirs w) w = w.
Proof. by destruct w. Qed.

Lemma with_dirs_eq (w : world) (d d' : gset (list (list N))) :
  d = d' -> with_dirs d w = with_dirs d' w.
Proof. by intros ->. Qed.

Lemma walk_ext (w w' : world) (cs cur : list (list N)) :
  dirs w = dirs w' -> walk w cur cs = walk w' cur cs.
Proof.
  intros Hd. revert cur. induction cs as [| c cs IH]; intros cur; simpl; [done |].
  rewrite (is_dir_ext w w' _ Hd), !IH. done.
Qed.

Lemma resolve_file_ext (w w' : world) (path : list N) :
  dirs w = dirs w' -> cwd w = cwd w' ->
  resolve_file w path = resolve_file w' path.
Proof.
  intros Hd Hc. unfold resolve_file, start. rewrite Hc, (walk_ext w w' _ _ Hd).
  destruct (walk w' _ _); [| done].
  destruct (last _); [| done].
  by rewrite (is_dir_ext w w' _ Hd).
Qed.

(** [os.makedirs] either stops at a regular file or adds exactly the
    directories the path names. *)
Lemma makedirs_from_ok (cs cur : list (list N)) (w : world) :
  (forall p, p ∈ visited cur cs -> is_dir w p = true \/ is_file w p = false) ->
  makedirs_from cur cs w =
    (Ok tt, with_dirs (dirs w ∪ list_to_set (visited cur cs)) w).
Proof.
  revert cur w. induction cs as [| c cs IH]; intros cur w Hclear; simpl in *.
  - unfold ret. f_equal. rewrite <- (with_dirs_same w) at 1.
    apply with_dirs_eq. set_solver.
  - destruct (is_here c); [by apply IH |].
    destruct (is_parent c); [by apply IH |].
    destruct (is_dir w (cur ++ [c])) eqn:Hd.
    + rewrite IH by (intros p Hp; apply Hclear; set_solver).
      f_equal. apply with_dirs_eq. apply is_dir_child in Hd.
      simpl. set_solver.
    + destruct (Hclear (cur ++ [c])) as [Hc | Hc]; [set_solver | congruence |].
      rewrite Hc, IH.
      * f_equal. destruct w; unfold with_dirs; simpl. f_equal. set_solver.
      * intros p Hp. destruct (Hclear p) as [H | H]; [set_solver | left | by right].
        apply is_dir_spec in H. apply is_dir_spec. simpl. set_solver.
Qed.

Lemma makedirs_from_inv (cs cur : list (list N)) (w w1 : world) (r : result unit) :
  makedirs_from cur cs w = (r, w1) ->
  (r = Ok tt /\ w1 = with_dirs (dirs w ∪ list_to_set (visited cur cs)) w) \/
  (r = Raise OSError /\ exists d, dirs w ⊆ d /\ w1 = with_dirs d w).
Proof.
  revert cur w. induction cs as [| c cs IH]; intros cur w; simpl.
  - unfold ret. intros [= <- <-]. left. split; [done |].
    rewrite <- (with_dirs_same w) at 1. apply with_dirs_eq. set_solver.
  - destruct (is_here c); [by apply IH |].
    destruct (is_parent c); [by apply IH |].
    destruct (is_dir w (cur ++ [c])) eqn:Hd.
    + intros H. apply IH in H as [[-> ->] | [-> (d & Hsub & ->)]]; [left | right; eauto].
      split; [done |]. apply with_dirs_eq. apply is_dir_child in Hd. simpl. set_solver.
    + destruct (is_file w (cur ++ [c])).
      * intros [= <- <-]. right. split; [done |]. exists (dirs w).
        split; [done |]. by rewrite with_dirs_same.
      * intros H. apply IH in H as [[-> ->] | [-> (d & Hsub & ->)]]; [left | right].
        -- split; [done |]. destruct w; unfold with_dirs; simpl. f_equal. set_solver.
        -- split; [done |]. exists d. split; [simpl in Hsub; set_solver | by destruct w].
Qed.

Lemma os_makedirs_inv (name : list N) (w w1 : world) :
  os_makedirs name w = (Ok tt, w1) ->
  name <> [] /\ w1 = with_dirs (dirs w ∪ list_to_set (output_dirs w name)) w.
Proof.
  unfold os_makedirs, output_dirs. destruct name as [| c name]; [done |].
  intros H. split; [done |].
  by apply makedirs_from_inv in H as [[_ ->] | [[=] _]].
Qed.

Lemma os_makedirs_ok (name : list N) (w : world) :
  name <> [] ->
  (forall p, p ∈ output_dirs w name -> is_dir w p = true \/ is_file w p = false) ->
  os_makedirs name w =
    (Ok tt, with_dirs (dirs w ∪ list_to_set (output_dirs w name)) w).
Proof.
  unfold os_makedirs, output_dirs. destruct name as [| c name]; [done |].
  intros _ H. by apply makedirs_from_ok.
Qed.

(** Done once, [os.makedirs] changes nothing when it is done again. *)
Lemma os_makedirs_again (name : list N) (w w1 w2 : world) :
  os_makedirs name w = (Ok tt, w1) ->
  dirs w2 = dirs w1 -> cwd w2 = cwd w ->
  os_makedirs name w2 = (Ok tt, w2).
Proof.
  intros H Hd Hc. apply os_makedirs_inv in H as [Hne ->]. simpl in Hd.
  assert (Ho : output_dirs w2 name = output_dirs w name).
  { unfold output_dirs, start. by rewrite Hc. }
  rewrite os_makedirs_ok; [| done |].
  - f_equal. etrans; [| apply with_dirs_same]. apply with_dirs_eq.
    rewrite Ho, Hd. set_solver.
  - intros p Hp. left. apply is_dir_spec. right. rewrite Hd, <- Ho.
    apply elem_of_union_r. by apply elem_of_list_to_set.
Qed.

(** ** One call of write_json_log *)

Lemma json_dump_run (o : pyval) (f : list (list N)) (w : world) :
  json_dump o f (with_files (<[f := []]> (files w)) w) =
    (match snd (json_iterencode o) with
     | None => Ok tt
     | Some e => Raise e
     end, written w f (fst (json_iterencode o))).
Proof.
  unfold json_dump. destruct (json_iterencode o) as [text r]. simpl.
  unfold bind, fp_write, written, with_files. simpl.
  rewrite lookup_insert_eq, insert_insert_eq. simpl.
  by destruct r.
Qed.

Lemma write_json_log_run (data : list (list N * pyval))
    (output_dir filename : list N) (w w1 : world) (f : list (list N)) :
  os_makedirs output_dir w = (Ok tt, w1) ->
  resolve_file w1 (os_path_join output_dir filename) = Some f ->
  write_json_log data output_dir filename w =
    match snd (json_iterencode (PyDict data)) with
    | None =>
        (Ok PyNone,
         noticed (written w1 f (fst (json_iterencode (PyDict data))))
                 (os_path_join output_dir filename))
    | Some e => (Raise e, written w1 f (fst (json_iterencode (PyDict data))))
    end.
Proof.
  intros Hmk Hres. unfold write_json_log, bind at 1. rewrite Hmk.
  unfold bind at 1, open_w. rewrite Hres.
  unfold bind at 1. rewrite json_dump_run.
  by destruct (snd (json_iterencode (PyDict data))).
Qed.

Lemma write_json_log_no_dir (data : list (list N * pyval))
    (output_dir filename : list N) (w w1 : world) (e : exn) :
  os_makedirs output_dir w = (Raise e, w1) ->
  write_json_log data output_dir filename w = (Raise e, w1).
Proof. intros H. unfold write_json_log, bind at 1. by rewrite H. Qed.

Lemma write_json_log_no_file (data : list (list N * pyval))
    (output_dir filename : list N) (w w1 : world) :
  os_makedirs output_dir w = (Ok tt, w1) ->
  resolve_file w1 (os_path_join output_dir filename) = None ->
  write_json_log data output_dir filename w = (Raise OSError, w1).
Proof.
  intros Hmk Hres. unfold write_json_log, bind at 1. rewrite Hmk.
  unfold bind at 1, open_w. by rewrite Hres.
Qed.

(** What a successful call has done. *)
Lemma write_json_log_inv (data : list (list N * pyval))
    (output_dir filename : list N) (w w' : world) (r : pyval) :
  write_json_log data output_dir filename w = (Ok r, w') ->
  exists w1 f,
    os_makedirs output_dir w = (Ok tt, w1) /\
    resolve_file w1 (os_path_join output_dir filename) = Some f /\
    snd (json_iterencode (PyDict data)) = None /\
    r = PyNone /\
    w' = noticed (written w1 f (fst (json_iterencode (PyDict data))))
                 (os_path_join output_dir filename).
Proof.
  intros H.
  destruct (os_makedirs output_dir w) as [[[] | e] w1] eqn:Hmk.
  - destruct (resolve_file w1 (os_path_join output_dir filename)) as [f |] eqn:Hres.
    + rewrite (write_json_log_run _ _ _ _ _ _ Hmk Hres) in H.
      exists w1, f. destruct (snd (json_iterencode (PyDict data))); [done |].
      by injection H as <- <-.
    + by rewrite (write_json_log_no_file _ _ _ _ _ Hmk Hres) in H.
  - by rewrite (write_json_log_no_dir _ _ _ _ _ _ Hmk) in H.
Qed.

(** An induction principle that reaches the items of lists and dicts. *)
Lemma pyval_ind (P : pyval -> Prop) :
  P PyNone ->
  (forall b, P (PyBool b)) ->
  (forall z, P (PyInt z)) ->
  (forall x, P (PyFloat x)) ->
  (forall s, P (PyStr s)) ->
  (forall l, Forall P l -> P (PyList l)) ->
  (forall d, Forall (fun kv => P (snd kv)) d -> P (PyDict d)) ->
  P PyObject ->
  P PyBackRef ->
  forall v, P v.
Proof.
  intros HNone HBool HInt HFloat HStr HList HDict HObject HBackRef.
  exact (fix F (v : pyval) : P v :=
    match v with
    | PyNone => HNone
    | PyBool b => HBool b
    | PyInt z => HInt z
    | PyFloat x => HFloat x
    | PyStr s => HStr s
    | PyList l =>
        HList l ((fix G (l : list pyval) : Forall P l :=
                    match l with
                    | [] => List.Forall_nil P
                    | v :: l' => List.Forall_cons P v l' (F v) (G l')
                    end) l)
    | PyDict d =>
        HDict d ((fix G (d : list (list N * pyval)) : Forall (fun kv => P (snd kv)) d :=
                    match d with
                    | [] => List.Forall_nil _
                    | kv :: d' => List.Forall_cons (fun kv => P (snd kv)) kv d' (F (snd kv)) (G d')
                    end) d)
    | PyObject => HObject
    | PyBackRef => HBackRef
    end).
Qed.

(** ** The generator *)

#[local] Arguments iterencode_items : simpl never.
#[local] Arguments str : simpl never.
#[local] Arguments newline_indent : simpl never.

Lemma gen_seq_snd (g1 g2 : gen) :
  snd (g1 ;;; g2) = match snd g1 with Some e => Some e | None => snd g2 end.
Proof. by destruct g1 as [t1 [e1 |]]. Qed.

Lemma gen_seq_fst (g1 g2 : gen) :
  fst (g1 ;;; g2) =
    match snd g1 with Some e => fst g1 | None => fst g1 ++ fst g2 end.
Proof. by destruct g1 as [t1 [e1 |]]. Qed.

Lemma yield_snd (t : list N) : snd (yield t) = None.
Proof. done. Qed.

Lemma yield_fst (t : list N) : fst (yield t) = t.
Proof. done. Qed.

Lemma iterencode_list_cons (v : pyval) (l : list pyval) (level : nat) :
  iterencode (PyList (v :: l)) level =
    (yield (str "[") ;;; yield (newline_indent (S level)) ;;;
     iterencode_items (fun value => iterencode value (S level))
                      (str "," ++ newline_indent (S level)) true (v :: l) ;;;
     yield (newline_indent level) ;;; yield (str "]")).
Proof. done. Qed.

Lemma iterencode_dict_cons (kv : list N * pyval) (d : list (list N * pyval))
    (level : nat) :
  iterencode (PyDict (kv :: d)) level =
    (yield (str "{") ;;; yield (newline_indent (S level)) ;;;
     iterencode_items
       (fun item =>
          yield (encode_basestring_ascii (fst item)) ;;;
          yield (str ": ") ;;;
          iterencode (snd item) (S level))
       (str "," ++ newline_indent (S level)) true (kv :: d) ;;;
     yield (newline_indent level) ;;; yield (str "}")).
Proof. done. Qed.

Lemma iterencode_items_cons {A} (encode : A -> gen) (sep : list N)
    (first : bool) (a : A) (l : list A) :
  iterencode_items encode sep first (a :: l) =
    ((if first then yield [] else yield sep) ;;;
     encode a ;;; iterencode_items encode sep false l).
Proof. done. Qed.

Lemma iterencode_items_raises {A} (encode : A -> gen) (sep : list N)
    (Q : exn -> Prop) (l : list A) (first : bool) (e : exn) :
  Forall (fun a => forall e, snd (encode a) = Some e -> Q e) l ->
  snd (iterencode_items encode sep first l) = Some e -> Q e.
Proof.
  intros Hl. revert first.
  induction Hl as [| a l Ha _ IH]; intros first H.
  - discriminate.
  - rewrite iterencode_items_cons, !gen_seq_snd in H.
    destruct first; rewrite yield_snd in H;
      (destruct (snd (encode a)) eqn:Ha'; [injection H as ->; eauto | eauto]).
Qed.

(** The encoder raises nothing but TypeError and ValueError. *)
Lemma iterencode_raises (v : pyval) (level : nat) (e : exn) :
  snd (iterencode v level) = Some e -> e = TypeError \/ e = ValueError.
Proof.
  revert level e.
  induction v as [| b | z | x | s | l IH | d IH | |] using pyval_ind;
    intros level e H; try discriminate H.
  - by destruct b.
  - destruct l as [| v0 l0]; [discriminate |].
    rewrite iterencode_list_cons, !gen_seq_snd, !yield_snd in H.
    destruct (snd (iterencode_items _ _ _ _)) eqn:Hi; [| discriminate].
    injection H as ->. revert Hi.
    apply (iterencode_items_raises _ _ (fun e => e = TypeError \/ e = ValueError)).
    eapply Forall_impl; [exact IH |]. simpl. eauto.
  - destruct d as [| kv0 d0]; [discriminate |].
    rewrite iterencode_dict_cons, !gen_seq_snd, !yield_snd in H.
    destruct (snd (iterencode_items _ _ _ _)) eqn:Hi; [| discriminate].
    injection H as ->. revert Hi.
    apply (iterencode_items_raises _ _ (fun e => e = TypeError \/ e = ValueError)).
    eapply Forall_impl; [exact IH |]. intros kv Hkv e' H. cbv beta in H.
    rewrite !gen_seq_snd, !yield_snd in H. eauto.
  - injection H as <-. by left.
  - injection H as <-. by right.
Qed.

(** ** The claims about one call *)

Lemma written_read (w1 : world) (f : list (list N)) (text path : list N) :
  resolve_file w1 path = Some f ->
  forall w', dirs w' = dirs w1 -> cwd w' = cwd w1 ->
    files w' !! f = Some text ->
    read_text path w' = (Ok text, w').
Proof.
  intros Hres w' Hd Hc Hf. unfold read_text.
  by rewrite (resolve_file_ext w' w1 path Hd Hc), Hres, Hf.
Qed.

(** After a call that returned, the text the encoder yielded is what a
    reader finds at the joined path. *)
Lemma write_json_log_read (data : list (list N * pyval))
    (output_dir filename : list N) (w w' : world) (r : pyval) :
  write_json_log data output_dir filename w = (Ok r, w') ->
  read_text (os_path_join output_dir filename) w' =
    (Ok (fst (json_iterencode (PyDict data))), w').
Proof.
  intros H. apply write_json_log_inv in H as (w1 & f & Hmk & Hres & Henc & -> & ->).
  eapply written_read; [exact Hres | done | done |].
  simpl. apply lookup_insert_eq.
Qed.

(** C2, as the code has it: a successful [write_json_log] returns None;
    the path of the document, [os.path.join(output_dir, filename)], is
    stated in the notice printed last, and the document is at that path. *)
Theorem write_json_log_returns_none (data : list (list N * pyval))
    (output_dir filename : list N) (w w' : world) (r : pyval) :
  write_json_log data output_dir filename w = (Ok r, w') ->
  r = PyNone /\
  last (stdout w') =
    Some (str "[info] Wrote log to " ++ os_path_join output_dir filename) /\
  read_text (os_path_join output_dir filename) w' =
    (Ok (fst (json_iterencode (PyDict data))), w').
Proof.
  intros H. pose proof (write_json_log_read _ _ _ _ _ _ H) as Hread.
  apply write_json_log_inv in H as (w1 & f & Hmk & Hres & Henc & -> & ->).
  split; [done |]. split; [| exact Hread].
  simpl. by rewrite last_snoc.
Qed.

Lemma write_json_log_returns_none_witness :
  exists w',
    write_json_log coverage_record (str "out") (str "a.json") w_home = (Ok PyNone, w') /\
    last (stdout w') = Some (str "[info] Wrote log to out/a.json").
Proof.
  eexists. split; [vm_compute; reflexivity |].
  exact (proj1 (proj2 (write_json_log_returns_none coverage_record (str "out")
                         (str "a.json") w_home _ PyNone eq_refl))).
Defined.

(** C2, as the claim has it, fails: the call succeeds and what it returns
    is None, not a path. *)
Lemma write_json_log_returns_path_counterexample :
  fst (write_json_log coverage_record (str "out") (str "a.json") w_home) = Ok PyNone /\
  forall path : list N,
    fst (write_json_log coverage_record (str "out") (str "a.json") w_home)
      <> Ok (PyStr path).
Proof.
  assert (H : fst (write_json_log coverage_record (str "out") (str "a.json") w_home)
              = Ok PyNone) by (vm_compute; reflexivity).
  split; [exact H |]. intros path. rewrite H. discriminate.
Qed.

(** C3, as the code has it: a filename with a path separator in it is
    not rejected.  Once the output directory is made, the document is
    written at [os.path.join(output_dir, filename)] when that names a file
    in a directory that exists, and the call returns; when it does not,
    the call raises OSError and the directories made stay. *)
Theorem write_json_log_separator_in_filename (data : list (list N * pyval))
    (output_dir filename : list N) (w w1 : world) :
  SLASH ∈ filename ->
  snd (json_iterencode (PyDict data)) = None ->
  os_makedirs output_dir w = (Ok tt, w1) ->
  write_json_log data output_dir filename w =
    match resolve_file w1 (os_path_join output_dir filename) with
    | Some f =>
        (Ok PyNone,
         noticed (written w1 f (fst (json_iterencode (PyDict data))))
                 (os_path_join output_dir filename))
    | None => (Raise OSError, w1)
    end.
Proof.
  intros _ Henc Hmk.
  destruct (resolve_file w1 (os_path_join output_dir filename)) as [f |] eqn:Hres.
  - by rewrite (write_json_log_run _ _ _ _ _ _ Hmk Hres), Henc.
  - by apply write_json_log_no_file.
Qed.

Lemma write_json_log_separator_in_filename_witness :
  write_json_log coverage_record (str "out") (str "sub/a.json") w_sub =
    (Ok PyNone,
     noticed (written w_sub [str "home"; str "out"; str "sub"; str "a.json"]
                      (fst (json_iterencode (PyDict coverage_record))))
             (str "out/sub/a.json")).
Proof.
  assert (Hsep : SLASH ∈ str "sub/a.json") by (by vm_compute; do 3 right; left).
  assert (Hmk : os_makedirs (str "out") w_sub = (Ok tt, w_sub))
    by (vm_compute; reflexivity).
  exact (write_json_log_separator_in_filename coverage_record (str "out")
           (str "sub/a.json") w_sub w_sub Hsep eq_refl Hmk).
Defined.

(** C3, as the claim has it, fails: with the separator in the filename
    the call returns, and the document is in the tree. *)
Lemma write_json_log_separator_counterexample :
  SLASH ∈ str "sub/a.json" /\
  fst (write_json_log coverage_record (str "out") (str "sub/a.json") w_sub) = Ok PyNone /\
  files w_sub !! [str "home"; str "out"; str "sub"; str "a.json"] = None /\
  files (snd (write_json_log coverage_record (str "out") (str "sub/a.json") w_sub))
    !! [str "home"; str "out"; str "sub"; str "a.json"]
  = Some (fst (json_iterencode (PyDict coverage_record))).
Proof.
  split; [by vm_compute; do 3 right; left |].
  split; [vm_compute; reflexivity |].
  split; vm_compute; reflexivity.
Qed.

(** C4, as the code has it: with a record the encoder cannot serialize,
    the call raises TypeError or ValueError after the directory is made
    and the file is opened; the file is left with the text that came
    before the failure. *)
Theorem write_json_log_unserializable (data : list (list N * pyval))
    (output_dir filename : list N) (w w1 : world) (f : list (list N)) (e : exn) :
  snd (json_iterencode (PyDict data)) = Some e ->
  os_makedirs output_dir w = (Ok tt, w1) ->
  resolve_file w1 (os_path_join output_dir filename) = Some f ->
  (e = TypeError \/ e = ValueError) /\
  write_json_log data output_dir filename w =
    (Raise e, written w1 f (fst (json_iterencode (PyDict data)))).
Proof.
  intros Henc Hmk Hres. split.
  - by apply iterencode_raises in Henc.
  - by rewrite (write_json_log_run _ _ _ _ _ _ Hmk Hres), Henc.
Qed.

Lemma write_json_log_unserializable_witness :
  write_json_log cyclic_record (str "out") (str "a.json") w_sub =
    (Raise ValueError,
     written w_sub [str "home"; str "out"; str "a.json"]
             (fst (json_iterencode (PyDict cyclic_record)))).
Proof.
  assert (Hmk : os_makedirs (str "out") w_sub = (Ok tt, w_sub))
    by (vm_compute; reflexivity).
  assert (Hres : resolve_file w_sub (os_path_join (str "out") (str "a.json"))
                 = Some [str "home"; str "out"; str "a.json"])
    by (vm_compute; reflexivity).
  exact (proj2 (write_json_log_unserializable cyclic_record (str "out")
                  (str "a.json") w_sub w_sub _ ValueError eq_refl Hmk Hres)).
Defined.

(** C4, as the claim has it, fails: the record with a reference to
    itself makes the call raise, and by then the directory is made and the
    file is there with the start of the document in it. *)
Lemma write_json_log_cyclic_counterexample :
  fst (write_json_log cyclic_record (str "out") (str "a.json") w_home)
    = Raise ValueError /\
  is_dir w_home [str "home"; str "out"] = false /\
  is_dir (snd (write_json_log cyclic_record (str "out") (str "a.json") w_home))
         [str "home"; str "out"] = true /\
  files w_home !! [str "home"; str "out"; str "a.json"] = None /\
  files (snd (write_json_log cyclic_record (str "out") (str "a.json") w_home))
    !! [str "home"; str "out"; str "a.json"]
  = Some ([123; NEWLINE] ++ str "  " ++ [QUOTE] ++ str "a" ++ [QUOTE] ++ str ": 1," ++
          [NEWLINE] ++ str "  " ++ [QUOTE] ++ str "self" ++ [QUOTE] ++ str ": ").
Proof.
  repeat split; vm_compute; reflexivity.
Qed.

(** C5: a second call with the same arguments returns as the first did
    and leaves the directories and the files of the first: the file tree
    is as after one call. *)
Theorem write_json_log_idempotent (data : list (list N * pyval))
    (output_dir filename : list N) (w w1 : world) (r : pyval) :
  write_json_log data output_dir filename w = (Ok r, w1) ->
  exists w2,
    write_json_log data output_dir filename w1 = (Ok r, w2) /\
    cwd w2 = cwd w1 /\ dirs w2 = dirs w1 /\ files w2 = files w1.
Proof.
  intros H. apply write_json_log_inv in H as (w0 & f & Hmk & Hres & Henc & -> & ->).
  set (w1 := noticed _ _).
  assert (Hmk' : os_makedirs output_dir w1 = (Ok tt, w1)).
  { eapply os_makedirs_again; [exact Hmk | done |].
    apply os_makedirs_inv in Hmk as [_ ->]. done. }
  assert (Hres' : resolve_file w1 (os_path_join output_dir filename) = Some f).
  { by rewrite (resolve_file_ext w1 w0). }
  eexists. rewrite (write_json_log_run _ _ _ _ _ _ Hmk' Hres'), Henc.
  split; [done |]. split; [done |]. split; [done |].
  simpl. by rewrite insert_insert_eq.
Qed.

Lemma write_json_log_idempotent_witness :
  exists w1 w2,
    write_json_log sample_record (str "logs/run1") (str "a.json") w_home = (Ok PyNone, w1) /\
    write_json_log sample_record (str "logs/run1") (str "a.json") w1 = (Ok PyNone, w2) /\
    cwd w2 = cwd w1 /\ dirs w2 = dirs w1 /\ files w2 = files w1.
Proof.
  eexists.
  assert (H1 : write_json_log sample_record (str "logs/run1") (str "a.json") w_home
               = (Ok PyNone, snd (write_json_log sample_record (str "logs/run1")
                                    (str "a.json") w_home)))
    by (vm_compute; reflexivity).
  destruct (write_json_log_idempotent _ _ _ _ _ _ H1) as (w2 & H2).
  exists w2. split; [exact H1 | exact H2].
Defined.

Lemma walk_visited (w : world) (cs cur : list (list N)) :
  (forall p, p ∈ visited cur cs -> is_dir w p = true) ->
  is_Some (walk w cur cs).
Proof.
  revert cur. induction cs as [| c cs IH]; intros cur Hv; simpl in *; [done |].
  destruct (is_here c); [by apply IH |].
  destruct (is_parent c); [by apply IH |].
  rewrite Hv by set_solver. apply IH. intros p Hp. apply Hv. set_solver.
Qed.

(** C6: when no regular file stands where the path wants a directory,
    the call makes every directory the path names that is not there yet,
    the intermediate ones included, and returns; the directories that
    are there already are left as they are, so that nothing is made when
    all of them exist.  Afterwards the path resolves to a directory. *)
Theorem write_json_log_makes_directories (data : list (list N * pyval))
    (output_dir filename : list N) (w : world) (f : list (list N)) :
  snd (json_iterencode (PyDict data)) = None ->
  output_dir <> [] ->
  (forall p, p ∈ output_dirs w output_dir ->
     is_dir w p = true \/ is_file w p = false) ->
  resolve_file (with_dirs (dirs w ∪ list_to_set (output_dirs w output_dir)) w)
               (os_path_join output_dir filename) = Some f ->
  exists w',
    write_json_log data output_dir filename w = (Ok PyNone, w') /\
    dirs w' = dirs w ∪ list_to_set (output_dirs w output_dir) /\
    (forall p, p ∈ output_dirs w output_dir -> is_dir w' p = true) /\
    is_Some (walk w' (start w' output_dir) (split_sep output_dir)) /\
    ((forall p, p ∈ output_dirs w output_dir -> is_dir w p = true) ->
     dirs w' = dirs w).
Proof.
  intros Henc Hne Hclear Hres.
  pose proof (os_makedirs_ok output_dir w Hne Hclear) as Hmk.
  rewrite (write_json_log_run _ _ _ _ _ _ Hmk Hres), Henc.
  eexists. split; [done |]. simpl.
  assert (Hall : forall p, p ∈ output_dirs w output_dir ->
            is_dir (noticed (written (with_dirs (dirs w ∪ list_to_set (output_dirs w output_dir)) w)
                       f (fst (json_iterencode (PyDict data))))
                     (os_path_join output_dir filename)) p = true).
  { intros p Hp. apply is_dir_spec. right. simpl.
    apply elem_of_union_r. by apply elem_of_list_to_set. }
  split; [done |]. split; [exact Hall |]. split.
  - apply walk_visited. exact Hall.
  - intros Hex. apply set_eq. intros p. rewrite elem_of_union, elem_of_list_to_set.
    split; [intros [Hp | Hp]; [done |] | by left].
    pose proof (Hex _ Hp) as Hd. apply is_dir_spec in Hd as [-> | Hd]; [| done].
    unfold output_dirs in Hp. exfalso. revert Hp. generalize (start w output_dir).
    induction (split_sep output_dir) as [| c cs IH]; intros cur; simpl; [set_solver |].
    destruct (is_here c); [apply IH |]. destruct (is_parent c); [apply IH |].
    rewrite elem_of_cons. intros [Hp | Hp]; [by destruct cur | by eapply IH].
Qed.

Lemma write_json_log_makes_directories_witness :
  exists w',
    write_json_log sample_record (str "logs/run1") (str "a.json") w_home = (Ok PyNone, w') /\
    dirs w' = dirs w_home ∪
              list_to_set [ [str "home"; str "logs"]; [str "home"; str "logs"; str "run1"] ] /\
    is_dir w_home [str "home"; str "logs"] = false /\
    is_dir w' [str "home"; str "logs"] = true /\
    is_dir w' [str "home"; str "logs"; str "run1"] = true.
Proof.
  assert (Hclear : forall p, p ∈ output_dirs w_home (str "logs/run1") ->
            is_dir w_home p = true \/ is_file w_home p = false).
  { intros p _. right. unfold is_file. simpl. rewrite lookup_empty.
    apply bool_decide_eq_false. by intros [x Hx]. }
  assert (Hres : resolve_file
            (with_dirs (dirs w_home ∪ list_to_set (output_dirs w_home (str "logs/run1"))) w_home)
            (os_path_join (str "logs/run1") (str "a.json"))
            = Some [str "home"; str "logs"; str "run1"; str "a.json"])
    by (vm_compute; reflexivity).
  assert (Hne : str "logs/run1" <> []) by discriminate.
  destruct (write_json_log_makes_directories sample_record (str "logs/run1")
              (str "a.json") w_home _ eq_refl Hne Hclear Hres)
    as (w' & Hrun & Hdirs & Hall & _ & _).
  exists w'. split; [exact Hrun |]. split; [exact Hdirs |].
  split; [vm_compute; reflexivity |].
  split; apply Hall; vm_compute; [left | right; left].
Defined.

(** C9: the record [capture_ai_interactions] returns has the prompt
    under "prompt" and the response under "response", as given, and one
    more key, "timestamp". *)
Theorem capture_ai_interactions_fields (prompt response : list N) (w : world) :
  exists record w',
    capture_ai_interactions prompt response w = (Ok record, w') /\
    dict_get record (str "prompt") = Some (PyStr prompt) /\
    dict_get record (str "response") = Some (PyStr response) /\
    map fst record = [str "timestamp"; str "prompt"; str "response"].
Proof.
  eexists. eexists. split; [reflexivity |].
  repeat split.
Qed.

(** C10: [run_sonarqube_analysis] returns the same record whatever the
    repository path, the project key and the token are: two runs that
    differ in them, the token included, cannot be told apart. *)
Theorem run_sonarqube_analysis_constant
    (repo_path1 project_key1 token1 repo_path2 project_key2 token2 : list N) :
  run_sonarqube_analysis repo_path1 project_key1 token1 =
  run_sonarqube_analysis repo_path2 project_key2 token2.
Proof. reflexivity. Qed.

(** ** The layout of the document *)

#[local] Arguments indentation : simpl never.

Lemma iterencode_items_None {A} (encode : A -> gen) (sep : list N)
    (l : list A) (first : bool) :
  snd (iterencode_items encode sep first l) = None ->
  Forall (fun a => snd (encode a) = None) l.
Proof.
  revert first. induction l as [| a l IH]; intros first H; [constructor |].
  rewrite iterencode_items_cons, !gen_seq_snd in H.
  assert (H' : snd (encode a) = None /\ snd (iterencode_items encode sep false l) = None).
  { destruct first; rewrite yield_snd in H; by destruct (snd (encode a)). }
  destruct H' as [Ha Hl]. constructor; [done | by eapply IH].
Qed.

Lemma iterencode_items_text {A} (encode : A -> gen) (sep : list N)
    (l : list A) (first : bool) :
  Forall (fun a => snd (encode a) = None) l ->
  fst (iterencode_items encode sep first l) =
    match l with
    | [] => []
    | _ => (if first then [] else sep) ++
           join_with sep (map (fun a => fst (encode a)) l)
    end.
Proof.
  intros Hl. revert first. induction Hl as [| a l Ha Hl IH]; intros first; [done |].
  rewrite iterencode_items_cons, !gen_seq_fst, Ha, IH.
  destruct first; rewrite yield_snd, yield_fst; f_equal;
    (destruct l as [| b l]; simpl; [by rewrite app_nil_r | done]).
Qed.

Lemma iterencode_list_None (v : pyval) (l : list pyval) (level : nat) :
  snd (iterencode (PyList (v :: l)) level) = None ->
  Forall (fun a => snd (iterencode a (S level)) = None) (v :: l).
Proof.
  rewrite iterencode_list_cons, !gen_seq_snd, !yield_snd. intros H.
  eapply iterencode_items_None.
  by destruct (snd (iterencode_items _ _ true (v :: l))) eqn:E.
Qed.

Lemma iterencode_dict_None (kv : list N * pyval) (d : list (list N * pyval))
    (level : nat) :
  snd (iterencode (PyDict (kv :: d)) level) = None ->
  Forall (fun a => snd (iterencode (snd a) (S level)) = None) (kv :: d).
Proof.
  rewrite iterencode_dict_cons, !gen_seq_snd, !yield_snd. intros H.
  assert (H' : snd (iterencode_items
            (fun item => yield (encode_basestring_ascii (fst item)) ;;;
                      yield (str ": ") ;;; iterencode (snd item) (S level))
            (str "," ++ newline_indent (S level)) true (kv :: d)) = None).
  { by destruct (snd (iterencode_items _ _ true (kv :: d))) eqn:E. }
  apply iterencode_items_None in H'.
  eapply Forall_impl; [exact H' |]. intros a Ha. cbv beta in Ha.
  by rewrite !gen_seq_snd, !yield_snd in Ha.
Qed.

Lemma newline_indent_indentation (level : nat) :
  newline_indent level = [NEWLINE] ++ indentation level.
Proof. done. Qed.

(** What the encoder yields for a value it can serialize is the layout
    of the specification. *)
Lemma iterencode_pretty (v : pyval) (level : nat) :
  snd (iterencode v level) = None ->
  fst (iterencode v level) = pretty level v.
Proof.
  revert level.
  induction v as [| b | z | x | s | l IH | d IH | |] using pyval_ind;
    intros level H; try done.
  - by destruct b.
  - destruct l as [| v0 l0]; [done |].
    pose proof (iterencode_list_None _ _ _ H) as Hall.
    assert (Hm : map (fun a => fst (iterencode a (S level))) (v0 :: l0)
                 = map (pretty (S level)) (v0 :: l0)).
    { apply map_ext_Forall. rewrite Forall_forall in IH, Hall |- *.
      intros a Ha. apply IH; [done |]. by apply Hall. }
    rewrite iterencode_list_cons, !gen_seq_snd, !yield_snd in H.
    destruct (snd (iterencode_items _ _ true (v0 :: l0))) eqn:Hs; [done |].
    rewrite iterencode_list_cons, !gen_seq_fst, !yield_snd, !yield_fst, Hs.
    rewrite iterencode_items_text by exact Hall.
    change (pretty level (PyList (v0 :: l0))) with
      (str "[" ++ [NEWLINE] ++ indentation (S level) ++
       join_with (str "," ++ [NEWLINE] ++ indentation (S level))
                 (map (pretty (S level)) (v0 :: l0)) ++
       [NEWLINE] ++ indentation level ++ str "]").
    rewrite !newline_indent_indentation, <- !app_assoc, Hm. done.
  - destruct d as [| kv0 d0]; [done |].
    pose proof (iterencode_dict_None _ _ _ H) as Hall.
    assert (Hm : map (fun item => fst (yield (encode_basestring_ascii (fst item)) ;;;
                                    yield (str ": ") ;;;
                                    iterencode (snd item) (S level))) (kv0 :: d0)
                 = map (fun kv => encode_basestring_ascii (fst kv) ++ str ": " ++
                                  pretty (S level) (snd kv)) (kv0 :: d0)).
    { apply map_ext_Forall. rewrite Forall_forall in IH, Hall |- *.
      intros a Ha. rewrite !gen_seq_fst, !yield_snd, !yield_fst.
      rewrite IH; [done | done |]. by apply Hall. }
    assert (Hall' : Forall (fun item => snd (yield (encode_basestring_ascii (fst item)) ;;;
                                          yield (str ": ") ;;;
                                          iterencode (snd item) (S level)) = None)
                           (kv0 :: d0)).
    { eapply Forall_impl; [exact Hall |]. intros a Ha. cbv beta in Ha.
      by rewrite !gen_seq_snd, !yield_snd. }
    rewrite iterencode_dict_cons, !gen_seq_snd, !yield_snd in H.
    destruct (snd (iterencode_items _ _ true (kv0 :: d0))) eqn:Hs; [done |].
    rewrite iterencode_dict_cons, !gen_seq_fst, !yield_snd, !yield_fst, Hs.
    rewrite iterencode_items_text by exact Hall'.
    change (pretty level (PyDict (kv0 :: d0))) with
      (str "{" ++ [NEWLINE] ++ indentation (S level) ++
       join_with (str "," ++ [NEWLINE] ++ indentation (S level))
                 (map (fun kv => encode_basestring_ascii (fst kv) ++ str ": " ++
                                 pretty (S level) (snd kv)) (kv0 :: d0)) ++
       [NEWLINE] ++ indentation level ++ str "}").
    rewrite !newline_indent_indentation, <- !app_assoc, Hm. done.
Qed.

(** C7: the text [write_json_log] has put in the file is the
    pretty-printed document of the specification: items one to a line,
    two spaces deeper at each level, the keys in the order of the
    record. *)
Theorem write_json_log_layout (data : list (list N * pyval))
    (output_dir filename : list N) (w w' : world) (r : pyval) :
  write_json_log data output_dir filename w = (Ok r, w') ->
  read_text (os_path_join output_dir filename) w' =
    (Ok (pretty 0 (PyDict data)), w').
Proof.
  intros H. pose proof (write_json_log_read _ _ _ _ _ _ H) as Hread.
  apply write_json_log_inv in H as (w1 & f & _ & _ & Henc & _ & _).
  by rewrite <- (iterencode_pretty _ _ Henc).
Qed.

Lemma write_json_log_layout_witness :
  exists w',
    write_json_log coverage_record (str "out") (str "a.json") w_home = (Ok PyNone, w') /\
    read_text (str "out/a.json") w' =
      (Ok ([123; NEWLINE] ++
           str "  " ++ [QUOTE] ++ str "total_lines" ++ [QUOTE] ++ str ": 1000," ++ [NEWLINE] ++
           str "  " ++ [QUOTE] ++ str "covered_lines" ++ [QUOTE] ++ str ": 850," ++ [NEWLINE] ++
           str "  " ++ [QUOTE] ++ str "coverage_percent" ++ [QUOTE] ++ str ": 85.0" ++
           [NEWLINE; 125]), w').
Proof.
  eexists. split; [vm_compute; reflexivity |].
  exact (write_json_log_layout coverage_record (str "out") (str "a.json")
           w_home _ PyNone eq_refl).
Defined.

(** ** The whole run *)

Lemma split_sep_plain (name : list N) :
  SLASH ∉ name -> split_sep name = [name].
Proof.
  induction name as [| c name IH]; intros H; simpl; [done |].
  destruct (N.eqb_spec c SLASH) as [-> | Hc]; [set_solver |].
  rewrite IH; [done | set_solver].
Qed.

Lemma split_sep_nonempty (p : list N) : split_sep p <> [].
Proof.
  destruct p as [| c p]; simpl; [done |].
  destruct (c =? SLASH); [done |]. by destruct (split_sep p).
Qed.

Lemma split_sep_app (a b : list N) :
  split_sep (a ++ SLASH :: b) = split_sep a ++ split_sep b.
Proof.
  induction a as [| c a IH]; simpl.
  - done.
  - destruct (c =? SLASH); [by rewrite IH |].
    rewrite IH. pose proof (split_sep_nonempty a).
    by destruct (split_sep a).
Qed.

Lemma plain_name_spec (name : list N) :
  plain_name name = true ->
  name <> [] /\ (SLASH ∉ name) /\ is_here name = false /\ is_parent name = false.
Proof.
  unfold plain_name. rewrite !andb_true_iff, !negb_true_iff, !bool_decide_eq_false.
  tauto.
Qed.

Lemma logs_child_fresh (w wi : world) (name : list N) :
  is_dir w (cwd w ++ [str "logs"; name]) = false ->
  dirs wi ⊆ dirs w ∪ {[cwd w ++ [str "logs"]]} ->
  is_dir wi (cwd w ++ [str "logs"; name]) = false.
Proof.
  intros Hfree Hsub. apply not_true_is_false. intros H.
  apply is_dir_spec in H as [H | H]; [by destruct (cwd w) |].
  apply Hsub, elem_of_union in H as [H | H].
  - assert (is_dir w (cwd w ++ [str "logs"; name]) = true)
      by (apply is_dir_spec; by right). congruence.
  - apply elem_of_singleton in H. apply (f_equal length) in H.
    rewrite !length_app in H. simpl in H. lia.
Qed.

Lemma resolve_file_in_logs (name : list N) (w : world) :
  is_dir w (cwd w ++ [str "logs"]) = true ->
  is_dir w (cwd w ++ [str "logs"; name]) = false ->
  plain_name name = true ->
  resolve_file w (str "./logs/" ++ name) = Some (cwd w ++ [str "logs"; name]).
Proof.
  intros Hd Hf Hname.
  apply plain_name_spec in Hname as (Hne & Hsep & Hhere & Hpar).
  unfold resolve_file.
  change (str "./logs/" ++ name) with (str "./logs" ++ SLASH :: name).
  rewrite split_sep_app, (split_sep_plain name Hsep).
  change (split_sep (str "./logs")) with [[46]; str "logs"].
  change (start _ (str "./logs" ++ SLASH :: name)) with (cwd w).
  change (removelast ([[46]; str "logs"] ++ [name])) with [[46]; str "logs"].
  change (last ([[46]; str "logs"] ++ [name])) with (Some name).
  simpl walk. change (is_here [46]) with true. cbv iota.
  change (is_here (str "logs")) with false. change (is_parent (str "logs")) with false.
  cbv iota. rewrite Hd, Hhere, Hpar. simpl orb. cbv iota.
  rewrite <- app_assoc. simpl app. by rewrite Hf.
Qed.

(** One document of the run: a plain name under ./logs. *)
Lemma write_json_log_in_logs (data : list (list N * pyval)) (name : list N)
    (w : world) :
  is_dir w (cwd w ++ [str "logs"]) = true \/ is_file w (cwd w ++ [str "logs"]) = false ->
  is_dir w (cwd w ++ [str "logs"; name]) = false ->
  plain_name name = true ->
  snd (json_iterencode (PyDict data)) = None ->
  write_json_log data (str "./logs") name w =
    (Ok PyNone,
     noticed (written (with_dirs (dirs w ∪ {[cwd w ++ [str "logs"]]}) w)
                      (cwd w ++ [str "logs"; name])
                      (fst (json_iterencode (PyDict data))))
             (str "./logs/" ++ name)).
Proof.
  intros Hlogs Hfree Hname Henc.
  assert (Hout : output_dirs w (str "./logs") = [cwd w ++ [str "logs"]]) by reflexivity.
  assert (Hmk : os_makedirs (str "./logs") w =
                (Ok tt, with_dirs (dirs w ∪ {[cwd w ++ [str "logs"]]}) w)).
  { rewrite os_makedirs_ok; [| done |].
    - rewrite Hout. f_equal. apply with_dirs_eq. simpl. set_solver.
    - rewrite Hout. intros p Hp. apply list_elem_of_singleton in Hp as ->. done. }
  assert (Hjoin : os_path_join (str "./logs") name = str "./logs/" ++ name).
  { apply plain_name_spec in Hname as (Hne & Hsep & _).
    destruct name as [| c name]; [done |].
    unfold os_path_join. destruct (N.eqb_spec c SLASH) as [-> | _]; [set_solver | done]. }
  rewrite (write_json_log_run _ _ _ _ _ (cwd w ++ [str "logs"; name]) Hmk), Henc, Hjoin;
    [done |].
  rewrite Hjoin. apply (resolve_file_in_logs name (with_dirs _ w)); [| | done].
  - apply is_dir_spec. right. simpl. set_solver.
  - apply (logs_child_fresh w); [done |]. simpl. set_solver.
Qed.

Lemma bind_run {A B} (m : M A) (k : A -> M B) (w w1 : world) (a : A) :
  m w = (Ok a, w1) -> bind m k w = k a w1.
Proof. intros H. unfold bind. by rewrite H. Qed.

(** C8: when ./logs is or can be made a directory and none of the four
    names is a directory in it, [main] with ./logs as the output
    directory returns, and the files it leaves are those it found with
    four documents written: commit_metadata.json, sonar_metrics.json,
    ai_interactions.json and coverage.json, all in ./logs.  The document
    in coverage.json is the record with total_lines 1000, covered_lines
    850 and coverage_percent 85.0, and reads back as that record. *)
Theorem main_writes_four_documents (repo_path : list N) (w : world) :
  is_dir w (cwd w ++ [str "logs"]) = true \/ is_file w (cwd w ++ [str "logs"]) = false ->
  (forall name, name ∈ log_names -> is_dir w (cwd w ++ [str "logs"; name]) = false) ->
  exists w' commit_text ai_text,
    main repo_path (str "./logs") w = (Ok PyNone, w') /\
    files w' =
      <[cwd w ++ [str "logs"; str "coverage.json"] :=
          fst (json_iterencode (PyDict coverage_record))]>
      (<[cwd w ++ [str "logs"; str "ai_interactions.json"] := ai_text]>
      (<[cwd w ++ [str "logs"; str "sonar_metrics.json"] :=
          fst (json_iterencode (PyDict (run_sonarqube_analysis repo_path
                                          (str "PROJECT_KEY") (str "TOKEN"))))]>
      (<[cwd w ++ [str "logs"; str "commit_metadata.json"] := commit_text]>
         (files w)))) /\
    json_load_path (str "./logs/coverage.json") w' = (Ok (PyDict coverage_record), w').
Proof.
  intros Hlogs Hfree.
  assert (Hf1 := Hfree (str "commit_metadata.json") ltac:(set_solver)).
  assert (Hf2 := Hfree (str "sonar_metrics.json") ltac:(set_solver)).
  assert (Hf3 := Hfree (str "ai_interactions.json") ltac:(set_solver)).
  assert (Hf4 := Hfree (str "coverage.json") ltac:(set_solver)).
  unfold main.
  erewrite bind_run by reflexivity.
  erewrite bind_run by reflexivity.
  erewrite bind_run; cycle 1.
  { apply write_json_log_in_logs; [exact Hlogs | exact Hf1 | reflexivity | reflexivity]. }
  erewrite bind_run; cycle 1.
  { apply write_json_log_in_logs; [| | reflexivity | reflexivity].
    - left. apply is_dir_spec. right. simpl. set_solver.
    - apply (logs_child_fresh w); [exact Hf2 |]. simpl. set_solver. }
  erewrite bind_run by reflexivity.
  erewrite bind_run; cycle 1.
  { apply write_json_log_in_logs; [| | reflexivity | reflexivity].
    - left. apply is_dir_spec. right. simpl. set_solver.
    - apply (logs_child_fresh w); [exact Hf3 |]. simpl. set_solver. }
  erewrite bind_run; cycle 1.
  { apply write_json_log_in_logs; [| | reflexivity | reflexivity].
    - left. apply is_dir_spec. right. simpl. set_solver.
    - apply (logs_child_fresh w); [exact Hf4 |]. simpl. set_solver. }
  erewrite bind_run by reflexivity.
  eexists. eexists. eexists. split; [reflexivity |]. split; [reflexivity |].
  unfold json_load_path, read_text.
  erewrite bind_run; cycle 1.
  { rewrite (resolve_file_in_logs (str "coverage.json")); [| | | reflexivity].
    - simpl files. rewrite lookup_insert_eq. reflexivity.
    - apply is_dir_spec. right. simpl. set_solver.
    - apply (logs_child_fresh w); [exact Hf4 |]. simpl. set_solver. }
  reflexivity.
Qed.

Lemma main_writes_four_documents_witness :
  exists w',
    main (str ".") (str "./logs") w_home = (Ok PyNone, w') /\
    size (files w') = 4%nat /\
    json_load_path (str "./logs/coverage.json") w' = (Ok (PyDict coverage_record), w').
Proof.
  assert (H1 : is_dir w_home (cwd w_home ++ [str "logs"]) = true \/
               is_file w_home (cwd w_home ++ [str "logs"]) = false)
    by (right; vm_compute; reflexivity).
  assert (H2 : forall name, name ∈ log_names ->
               is_dir w_home (cwd w_home ++ [str "logs"; name]) = false).
  { intros name Hn. unfold log_names in Hn.
    repeat (apply elem_of_cons in Hn as [-> | Hn]; [vm_compute; reflexivity |]).
    by apply elem_of_nil in Hn. }
  destruct (main_writes_four_documents (str ".") w_home H1 H2)
    as (w' & commit_text & ai_text & Hrun & Hfiles & Hload).
  exists w'. split; [exact Hrun |]. split; [| exact Hload].
  rewrite Hfiles. vm_compute. reflexivity.
Defined.

(** ** Strings: what [scanstring] reads is what [encode_basestring_ascii] wrote *)

Lemma hex_val_hex_digit (d : N) : d < 16 -> hex_val (hex_digit d) = Some d.
Proof.
  intros Hd. unfold hex_digit, hex_val.
  destruct (N.ltb_spec d 10).
  - replace ((48 <=? 48 + d) && (48 + d <=? 57)) with true.
    + f_equal. lia.
    + symmetry. apply andb_true_iff. split; apply N.leb_le; lia.
  - replace ((48 <=? 87 + d) && (87 + d <=? 57)) with false.
    + replace ((97 <=? 87 + d) && (87 + d <=? 102)) with true.
      * f_equal. lia.
      * symmetry. apply andb_true_iff. split; apply N.leb_le; lia.
    + symmetry. apply andb_false_iff. right. apply N.leb_gt. lia.
Qed.

Lemma decode_hex4_hex4 (n : N) :
  n < 0x10000 ->
  decode_hex4 (hex_digit (n / 4096 mod 16)) (hex_digit (n / 256 mod 16))
              (hex_digit (n / 16 mod 16)) (hex_digit (n mod 16)) = Some n.
Proof.
  intros Hn. unfold decode_hex4.
  rewrite !hex_val_hex_digit by (apply N.mod_lt; lia).
  f_equal. zify. Z.to_euclidean_division_equations. lia.
Qed.

Lemma land_disjoint (k a : N) (m : N) :
  a < 2 ^ m -> N.land (k * 2 ^ m) a = 0.
Proof.
  intros Ha. rewrite <- (N.mod_small a (2 ^ m)) by done.
  rewrite <- N.land_ones, (N.land_comm a), N.land_assoc, N.land_ones, N.Div0.mod_mul.
  apply N.land_0_l.
Qed.

Lemma lor_disjoint (k a : N) (m : N) :
  a < 2 ^ m -> N.lor (k * 2 ^ m) a = k * 2 ^ m + a.
Proof.
  intros Ha. pose proof (land_disjoint k a m Ha) as H0.
  by rewrite <- N.lxor_lor, <- N.add_nocarry_lxor.
Qed.

(** The two halves of a surrogate pair, as the encoder computes them. *)
Lemma surrogate_pair (c : N) :
  0x10000 <= c -> c < 0x110000 ->
  let n := c - 0x10000 in
  let s1 := N.lor 0xd800 (N.land (N.shiftr n 10) 0x3ff) in
  let s2 := N.lor 0xdc00 (N.land n 0x3ff) in
  0xd800 <= s1 /\ s1 <= 0xdbff /\ 0xdc00 <= s2 /\ s2 <= 0xdfff /\
  0x10000 + N.lor (N.shiftl (s1 - 0xd800) 10) (s2 - 0xdc00) = c.
Proof.
  intros Hlo Hhi n s1 s2.
  assert (Hn : n < 0x100000) by (unfold n; lia).
  assert (Ha : N.land (N.shiftr n 10) 0x3ff = n / 1024).
  { change 0x3ff with (N.ones 10). rewrite N.land_ones, N.shiftr_div_pow2.
    apply N.mod_small. change (2 ^ 10) with 1024.
    apply N.Div0.div_lt_upper_bound. lia. }
  assert (Hb : N.land n 0x3ff = n mod 1024).
  { change 0x3ff with (N.ones 10). by rewrite N.land_ones. }
  assert (Hq : n / 1024 < 1024) by (apply N.Div0.div_lt_upper_bound; lia).
  assert (Hr : n mod 1024 < 1024) by (apply N.mod_lt; lia).
  assert (H1 : s1 = 0xd800 + n / 1024).
  { unfold s1. rewrite Ha. change 0xd800 with (27 * 2 ^ 11).
    apply lor_disjoint. change (2 ^ 11) with 2048. lia. }
  assert (H2 : s2 = 0xdc00 + n mod 1024).
  { unfold s2. rewrite Hb. change 0xdc00 with (55 * 2 ^ 10).
    apply lor_disjoint. change (2 ^ 10) with 1024. lia. }
  rewrite H1, H2. repeat split; try lia.
  replace (0xd800 + n / 1024 - 0xd800) with (n / 1024) by lia.
  replace (0xdc00 + n mod 1024 - 0xdc00) with (n mod 1024) by lia.
  rewrite N.shiftl_mul_pow2, lor_disjoint by (change (2 ^ 10) with 1024; lia).
  change (2 ^ 10) with 1024. pose proof (N.Div0.div_mod n 1024). unfold n in *. lia.
Qed.

Lemma scanstring_u (h1 h2 h3 h4 : N) (s3 : list N) :
  scanstring (BACKSLASH :: 117 :: h1 :: h2 :: h3 :: h4 :: s3) =
    match decode_hex4 h1 h2 h3 h4 with
    | None => None
    | Some uni =>
        if (0xd800 <=? uni) && (uni <=? 0xdbff) then
          match s3 with
          | b :: u :: s4 =>
              if (b =? BACKSLASH) && (u =? 117) then
                match s4 with
                | g1 :: g2 :: g3 :: g4 :: s5 =>
                    match decode_hex4 g1 g2 g3 g4 with
                    | None => None
                    | Some uni2 =>
                        if (0xdc00 <=? uni2) && (uni2 <=? 0xdfff) then
                          cons_chunk
                            (0x10000 + N.lor (N.shiftl (uni - 0xd800) 10) (uni2 - 0xdc00))
                            (scanstring s5)
                        else cons_chunk uni (scanstring s3)
                    end
                | _ => None
                end
              else cons_chunk uni (scanstring s3)
          | _ => cons_chunk uni (scanstring s3)
          end
        else cons_chunk uni (scanstring s3)
    end.
Proof. reflexivity. Qed.

Lemma scanstring_plain (c : N) (tail : list N) :
  c <> QUOTE -> c <> BACKSLASH -> 32 <= c ->
  scanstring (c :: tail) = cons_chunk c (scanstring tail).
Proof.
  intros Hq Hb Hc. simpl.
  apply N.eqb_neq in Hq, Hb. rewrite Hq, Hb.
  by destruct (N.ltb_spec c 32); [lia |].
Qed.

Lemma leb_range_false (lo hi c : N) :
  c < lo \/ hi < c -> (lo <=? c) && (c <=? hi) = false.
Proof.
  intros H. apply andb_false_iff.
  destruct H; [left | right]; apply N.leb_gt; lia.
Qed.

Lemma leb_range_true (lo hi c : N) :
  lo <= c -> c <= hi -> (lo <=? c) && (c <=? hi) = true.
Proof. intros H1 H2. apply andb_true_iff. split; by apply N.leb_le. Qed.

Lemma scalar_value_spec (c : N) :
  scalar_value c = true <-> c < 0xd800 \/ (0xe000 <= c /\ c < 0x110000).
Proof.
  unfold scalar_value.
  rewrite orb_true_iff, andb_true_iff, !N.ltb_lt, N.leb_le. tauto.
Qed.

(** One character: what the decoder reads from its escape is the
    character. *)
Lemma scanstring_escape_char (c : N) (tail : list N) :
  scalar_value c = true ->
  scanstring (escape_char c ++ tail) = cons_chunk c (scanstring tail).
Proof.
  intros Hc. apply scalar_value_spec in Hc. unfold escape_char.
  destruct (N.eqb_spec c BACKSLASH) as [-> | H1]; [reflexivity |].
  destruct (N.eqb_spec c QUOTE) as [-> | H2]; [reflexivity |].
  destruct (N.eqb_spec c 8) as [-> | H3]; [reflexivity |].
  destruct (N.eqb_spec c 12) as [-> | H4]; [reflexivity |].
  destruct (N.eqb_spec c 10) as [-> | H5]; [reflexivity |].
  destruct (N.eqb_spec c 13) as [-> | H6]; [reflexivity |].
  destruct (N.eqb_spec c 9) as [-> | H7]; [reflexivity |].
  destruct ((32 <=? c) && (c <=? 126)) eqn:Hp.
  - apply andb_true_iff in Hp as [Hp _]. apply N.leb_le in Hp.
    by apply scanstring_plain.
  - destruct (N.ltb_spec c 0x10000) as [Hlt | Hge].
    + unfold u_escape, hex4. simpl app. rewrite scanstring_u, decode_hex4_hex4 by done.
      rewrite leb_range_false; [done |]. lia.
    + destruct (surrogate_pair c Hge ltac:(lia)) as (Ha & Hb & Hc1 & Hd & He).
      set (s1 := N.lor 0xd800 _) in *. set (s2 := N.lor 0xdc00 _) in *.
      unfold u_escape, hex4. simpl app.
      rewrite scanstring_u, decode_hex4_hex4 by lia.
      rewrite leb_range_true by done.
      change ((BACKSLASH =? BACKSLASH) && (117 =? 117)) with true. cbv iota.
      rewrite decode_hex4_hex4 by lia.
      rewrite leb_range_true by done. by rewrite He.
Qed.

Lemma text_ok_cons (c : N) (s : list N) :
  text_ok (c :: s) = true <-> scalar_value c = true /\ text_ok s = true.
Proof. unfold text_ok. simpl. apply andb_true_iff. Qed.

Lemma scanstring_escaped (s rest : list N) :
  text_ok s = true ->
  scanstring (concat (map escape_char s) ++ QUOTE :: rest) = Some (s, rest).
Proof.
  induction s as [| c s IH]; intros Hs; [reflexivity |].
  apply text_ok_cons in Hs as [Hc Hs].
  simpl concat. rewrite <- app_assoc, scanstring_escape_char, IH by done. done.
Qed.

Lemma encode_basestring_ascii_app (s rest : list N) :
  encode_basestring_ascii s ++ rest =
    QUOTE :: concat (map escape_char s) ++ QUOTE :: rest.
Proof. unfold encode_basestring_ascii. simpl. by rewrite <- app_assoc. Qed.

(** ** Numbers: what NUMBER_RE matches in what [repr] printed *)

#[local] Arguments is_digit : simpl never.

Lemma scan_digits_app (ds rest : list N) :
  Forall (fun c => is_digit c = true) ds ->
  match rest with [] => True | c :: _ => is_digit c = false end ->
  scan_digits (ds ++ rest) = (ds, rest).
Proof.
  intros Hds Hrest. induction Hds as [| c ds Hc _ IH]; simpl.
  - destruct rest as [| c rest]; [done |]. simpl. by rewrite Hrest.
  - by rewrite Hc, IH.
Qed.

Lemma uint_digits_digit (u : Decimal.uint) :
  Forall (fun c => is_digit c = true) (uint_digits u).
Proof. induction u; simpl; constructor; done. Qed.

Lemma digits_uint_uint_digits (u : Decimal.uint) :
  digits_uint (uint_digits u) = u.
Proof. induction u; simpl; by rewrite ?IHu. Qed.

(** A positive number is printed with a first digit that is not zero. *)
Lemma pos_to_uint_head (p : positive) :
  exists c ds, uint_digits (Pos.to_uint p) = c :: ds /\
               is_digit c = true /\ c <> 48.
Proof.
  assert (Hn : unorm (Pos.to_uint p) = Pos.to_uint p).
  { rewrite <- DecimalPos.Unsigned.to_of, DecimalPos.Unsigned.of_to. done. }
  pose proof (DecimalPos.Unsigned.to_uint_nonnil p) as Hnil.
  pose proof (DecimalPos.Unsigned.to_uint_nonzero p) as Hz.
  destruct (Pos.to_uint p) as [| u | u | u | u | u | u | u | u | u | u] eqn:E.
  - done.
  - exfalso. rewrite unorm_D0 in Hn. unfold unorm in Hn.
    pose proof (nzhead_nonzero u u) as Hnz.
    destruct (nzhead u) eqn:En; congruence.
  - by exists 49, (uint_digits u).
  - by exists 50, (uint_digits u).
  - by exists 51, (uint_digits u).
  - by exists 52, (uint_digits u).
  - by exists 53, (uint_digits u).
  - by exists 54, (uint_digits u).
  - by exists 55, (uint_digits u).
  - by exists 56, (uint_digits u).
  - by exists 57, (uint_digits u).
Qed.

Lemma match_integer_pos (p : positive) (rest : list N) :
  match rest with [] => True | c :: _ => is_digit c = false end ->
  match_integer (uint_digits (Pos.to_uint p) ++ rest) =
    Some (false, uint_digits (Pos.to_uint p), rest).
Proof.
  intros Hrest. destruct (pos_to_uint_head p) as (c & ds & E & Hc & Hz).
  pose proof (uint_digits_digit (Pos.to_uint p)) as Hd. rewrite E in Hd |- *.
  apply Forall_cons in Hd as [_ Hd].
  assert (Hm : c <> 45). { intros ->. done. }
  apply N.eqb_neq in Hm, Hz.
  unfold match_integer. simpl. rewrite Hm. simpl. rewrite Hz, Hc.
  by rewrite scan_digits_app.
Qed.

Lemma match_integer_neg (p : positive) (rest : list N) :
  match rest with [] => True | c :: _ => is_digit c = false end ->
  match_integer (45 :: uint_digits (Pos.to_uint p) ++ rest) =
    Some (true, uint_digits (Pos.to_uint p), rest).
Proof.
  intros Hrest. destruct (pos_to_uint_head p) as (c & ds & E & Hc & Hz).
  pose proof (uint_digits_digit (Pos.to_uint p)) as Hd. rewrite E in Hd |- *.
  apply Forall_cons in Hd as [_ Hd].
  apply N.eqb_neq in Hz.
  unfold match_integer. simpl. rewrite Hz, Hc.
  by rewrite scan_digits_app.
Qed.

Lemma number_end_digit (rest : list N) :
  number_end rest -> match rest with [] => True | c :: _ => is_digit c = false end.
Proof. destruct rest; [done |]. by intros []. Qed.

#[local] Arguments match_frac : simpl never.
#[local] Arguments match_exp : simpl never.

Lemma match_frac_end (rest : list N) :
  number_end rest -> match_frac rest = (None, rest).
Proof.
  destruct rest as [| c rest]; [done |]. intros (_ & H & _). unfold match_frac.
  apply N.eqb_neq in H. by rewrite H.
Qed.

Lemma match_exp_end (rest : list N) :
  number_end rest -> match_exp rest = (None, rest).
Proof.
  destruct rest as [| c rest]; [done |]. intros (_ & _ & H1 & H2). unfold match_exp.
  apply N.eqb_neq in H1, H2. by rewrite H1, H2.
Qed.

(** An int: the match is the whole of what [int.__repr__] printed, with
    no fraction and no exponent, and [int] of it is the number. *)
Lemma match_number_int (z : Z) (rest : list N) :
  number_end rest ->
  exists neg ds,
    match_number (int_repr z ++ rest) = Some (NumberMatch neg ds None None, rest) /\
    parse_int neg ds = z.
Proof.
  intros Hrest. pose proof (number_end_digit _ Hrest) as Hd.
  unfold match_number, int_repr. destruct z as [| p | p]; simpl Z.to_int.
  - exists false, [48]. unfold match_integer. simpl.
    by rewrite match_frac_end, match_exp_end.
  - exists false, (uint_digits (Pos.to_uint p)).
    rewrite match_integer_pos, match_frac_end, match_exp_end by done.
    split; [done |]. unfold parse_int. rewrite digits_uint_uint_digits.
    apply (DecimalZ.of_to (Z.pos p)).
  - exists true, (uint_digits (Pos.to_uint p)).
    simpl app. rewrite match_integer_neg, match_frac_end, match_exp_end by done.
    split; [done |]. unfold parse_int. rewrite digits_uint_uint_digits.
    apply (DecimalZ.of_to (Z.neg p)).
Qed.

Lemma not_digit_head (c : N) (rest : list N) :
  is_digit c = false ->
  match c :: rest with [] => True | c :: _ => is_digit c = false end.
Proof. done. Qed.

Lemma match_integer_text (neg : bool) (ip rest : list N) :
  digits_ok ip ->
  ip = [48] \/ head ip <> Some 48 ->
  match rest with [] => True | c :: _ => is_digit c = false end ->
  match_integer ((if neg then [45] else []) ++ ip ++ rest) = Some (neg, ip, rest).
Proof.
  intros [Hne Hd] Hz Hrest.
  destruct ip as [| c ds]; [done |]. apply Forall_cons in Hd as [Hc Hd].
  assert (Hm : (c =? 45) = false). { apply N.eqb_neq. intros ->. done. }
  assert (Hgo : match_integer ((if neg then [45] else []) ++ (c :: ds) ++ rest) =
                if c =? 48 then Some (neg, [c], ds ++ rest)
                else let '(ds', r) := scan_digits (ds ++ rest) in Some (neg, c :: ds', r)).
  { unfold match_integer. destruct neg; simpl; rewrite ?Hm; simpl; by rewrite Hc. }
  rewrite Hgo. destruct Hz as [[= -> ->] | Hz]; [done |].
  destruct (N.eqb_spec c 48) as [-> | _]; [done |].
  by rewrite scan_digits_app.
Qed.

Lemma match_frac_text (fs rest : list N) :
  digits_ok fs ->
  match rest with [] => True | c :: _ => is_digit c = false end ->
  match_frac (46 :: fs ++ rest) = (Some fs, rest).
Proof.
  intros [Hne Hd] Hrest. unfold match_frac. change (46 =? 46) with true. cbv iota.
  rewrite scan_digits_app by done. by destruct fs.
Qed.

Lemma match_exp_text (neg : bool) (es rest : list N) :
  digits_ok es ->
  match rest with [] => True | c :: _ => is_digit c = false end ->
  match_exp (101 :: (if neg then 45 else 43) :: es ++ rest) = (Some (neg, es), rest).
Proof.
  intros [Hne Hd] Hrest. unfold match_exp. change ((101 =? 101) || (101 =? 69)) with true.
  cbv iota. destruct neg; simpl; rewrite scan_digits_app by done; by destruct es.
Qed.

(** NUMBER_RE matches the text of a number whole, group by group. *)
Lemma match_number_text (m : number_match) (rest : list N) :
  match_ok m -> number_end rest ->
  match_number (number_text m ++ rest) = Some (m, rest).
Proof.
  intros (Hi & Hz & Hf & He) Hrest. pose proof (number_end_digit _ Hrest) as Hd.
  destruct m as [neg ip fo eo]. unfold number_text, match_number. simpl in *.
  rewrite <- !app_assoc.
  destruct fo as [fs |], eo as [[en es] |]; simpl.
  - rewrite match_integer_text, match_frac_text, match_exp_text; done.
  - rewrite match_integer_text, match_frac_text, match_exp_end; done.
  - rewrite match_integer_text; try done.
    unfold match_frac. change (101 =? 46) with false. cbv iota.
    by rewrite match_exp_text.
  - by rewrite match_integer_text, match_frac_end, match_exp_end.
Qed.

(** ** Floats *)

Lemma forallb_Forall_true {A} (f : A -> bool) (l : list A) :
  forallb f l = true <-> Forall (fun a => f a = true) l.
Proof.
  induction l as [| a l IH]; simpl.
  - split; [constructor | done].
  - rewrite andb_true_iff, Forall_cons, IH. done.
Qed.

Lemma float_ok_spec (x : pyfloat) :
  float_ok x = true ->
  Forall (fun d => d < 10) (fl_digits x) /\
  ((fl_digits x = [0] /\ fl_decpt x = 1%Z) \/
   (exists d ds, fl_digits x = d :: ds /\ d <> 0 /\ last (d :: ds) <> Some 0)).
Proof.
  unfold float_ok. intros H. apply andb_true_iff in H as [Hd H]. split.
  - apply forallb_Forall_true in Hd. eapply Forall_impl; [exact Hd |].
    intros d Hlt. by apply N.ltb_lt.
  - destruct (fl_digits x) as [| d ds]; [done |].
    destruct d as [| p].
    + destruct ds; [| done]. left. split; [done |]. by apply Z.eqb_eq.
    + right. exists (N.pos p), ds. split; [done |]. split; [done |].
      apply andb_true_iff in H as [_ H]. apply negb_true_iff in H.
      by apply bool_decide_eq_false in H.
Qed.

Lemma digit_chars (ds : list N) :
  Forall (fun d => d < 10) ds ->
  Forall (fun c => is_digit c = true) (map (N.add 48) ds).
Proof.
  intros H. apply Forall_map. eapply Forall_impl; [exact H |].
  intros d Hd. simpl in *. unfold is_digit. apply leb_range_true; lia.
Qed.

Lemma digit_values (ds : list N) :
  map (fun c => c - 48) (map (N.add 48) ds) = ds.
Proof.
  rewrite map_map. induction ds as [| d ds IH]; simpl; [done |].
  rewrite IH. f_equal. lia.
Qed.

Lemma strip_zeros_nonzero (d : N) (ds : list N) :
  d <> 0 -> strip_zeros (d :: ds) = (O, d :: ds).
Proof. intros H. simpl. apply N.eqb_neq in H. by rewrite H. Qed.

Lemma strip_zeros_replicate (k : nat) (ds : list N) :
  strip_zeros (replicate k 0 ++ ds) =
    ((k + fst (strip_zeros ds))%nat, snd (strip_zeros ds)).
Proof.
  induction k as [| k IH]; simpl; [by destruct (strip_zeros ds) |].
  by rewrite IH.
Qed.

Lemma strip_zeros_nil : strip_zeros [] = (O, []).
Proof. done. Qed.

(** The zeros at the end: none to drop after a last digit that is not
    zero, and the zeros appended go. *)
Lemma strip_trailing (ds : list N) (k : nat) :
  ds <> [] -> last ds <> Some 0 ->
  rev (snd (strip_zeros (rev (ds ++ replicate k 0)))) = ds.
Proof.
  intros Hne Hl. rewrite rev_app_distr.
  assert (Hr : rev (replicate k 0) = replicate k 0).
  { induction k as [| k IH]; [done |]. simpl. rewrite IH.
    clear. induction k; simpl; [done | by f_equal]. }
  rewrite Hr, strip_zeros_replicate. cbn [snd].
  destruct ds as [| d ds _] using rev_ind; [done |].
  rewrite last_snoc in Hl. rewrite rev_app_distr.
  change (rev [d] ++ rev ds) with (d :: rev ds).
  rewrite strip_zeros_nonzero by congruence. cbn [snd].
  change (d :: rev ds) with (rev [d] ++ rev ds).
  by rewrite <- rev_app_distr, rev_involutive.
Qed.

Lemma exp_repr_text (e : Z) :
  exists es,
    exp_repr e = (if (e <? 0)%Z then 45 else 43) :: es /\
    digits_ok es /\
    Z.of_N (N.of_uint (digits_uint es)) = Z.abs e.
Proof.
  unfold exp_repr.
  assert (Hv : Z.of_N (N.of_uint (N.to_uint (Z.abs_N e))) = Z.abs e).
  { rewrite DecimalN.Unsigned.of_to. apply N2Z.inj_abs_N. }
  assert (Hne : uint_digits (N.to_uint (Z.abs_N e)) <> []).
  { destruct (Z.abs_N e) as [| p]; [done |]. simpl.
    destruct (pos_to_uint_head p) as (c & ds & -> & _). done. }
  destruct (Z.abs e <? 10)%Z; eexists; (split; [reflexivity |]); split.
  - split; [done |]. constructor; [done | apply uint_digits_digit].
  - simpl digits_uint. rewrite digits_uint_uint_digits. exact Hv.
  - split; [done | apply uint_digits_digit].
  - by rewrite digits_uint_uint_digits.
Qed.

Lemma parse_float_digits (neg : bool) (ip fs : list N) (ex : option (bool * list N))
    (ipv fsv ds : list N) (k : nat) (e : Z) :
  map (fun c => c - 48) ip = ipv ->
  map (fun c => c - 48) fs = fsv ->
  match ex with
  | Some (en, es) =>
      (if en then - Z.of_N (N.of_uint (digits_uint es))
       else Z.of_N (N.of_uint (digits_uint es)))%Z
  | None => 0%Z
  end = e ->
  strip_zeros (ipv ++ fsv) = (k, ds) ->
  parse_float (NumberMatch neg ip (Some fs) ex) =
    match rev (snd (strip_zeros (rev ds))) with
    | [] => PyFloatVal neg [0] 1
    | ds2 => PyFloatVal neg ds2 (Z.of_nat (length ipv) - Z.of_nat k + e)
    end.
Proof.
  intros <- <- <- Hs. unfold parse_float. cbv zeta.
  cbn [nm_neg nm_int nm_frac nm_exp default from_option]. unfold id.
  rewrite Hs. by destruct (rev (snd (strip_zeros (rev ds)))), ex as [[[] es] |].
Qed.

Lemma parse_float_no_frac (neg : bool) (ip : list N) (ex : option (bool * list N))
    (ipv ds : list N) (k : nat) (e : Z) :
  map (fun c => c - 48) ip = ipv ->
  match ex with
  | Some (en, es) =>
      (if en then - Z.of_N (N.of_uint (digits_uint es))
       else Z.of_N (N.of_uint (digits_uint es)))%Z
  | None => 0%Z
  end = e ->
  strip_zeros ipv = (k, ds) ->
  parse_float (NumberMatch neg ip None ex) =
    match rev (snd (strip_zeros (rev ds))) with
    | [] => PyFloatVal neg [0] 1
    | ds2 => PyFloatVal neg ds2 (Z.of_nat (length ipv) - Z.of_nat k + e)
    end.
Proof.
  intros <- <- Hs. unfold parse_float. cbv zeta.
  cbn [nm_neg nm_int nm_frac nm_exp default from_option]. unfold id.
  simpl map at 2. rewrite app_nil_r, Hs.
  by destruct (rev (snd (strip_zeros (rev ds)))), ex as [[[] es] |].
Qed.

Lemma strip_trailing_0 (ds : list N) :
  ds <> [] -> last ds <> Some 0 ->
  rev (snd (strip_zeros (rev ds))) = ds.
Proof.
  intros Hne Hl. pose proof (strip_trailing ds 0 Hne Hl) as H.
  simpl in H. by rewrite app_nil_r in H.
Qed.

Lemma exp_sign (e a : Z) :
  a = Z.abs e -> (if (e <? 0)%Z then (- a)%Z else a) = e.
Proof. intros ->. destruct (Z.ltb_spec e 0); lia. Qed.

#[local] Arguments number_text : simpl never.
#[local] Arguments parse_float : simpl never.
#[local] Arguments exp_repr : simpl never.
#[local] Arguments strip_zeros : simpl never.

Lemma map_replicate {A B} (f : A -> B) (n : nat) (x : A) :
  map f (replicate n x) = replicate n (f x).
Proof. induction n as [| n IH]; simpl; [done | by rewrite IH]. Qed.

Lemma number_text_frac (neg : bool) (ip fs : list N) :
  number_text (NumberMatch neg ip (Some fs) None) =
    (if neg then [45] else []) ++ ip ++ 46 :: fs.
Proof. unfold number_text. simpl. by rewrite app_nil_r. Qed.

(** What [float.__repr__] prints is the text of a number with a fraction
    or an exponent, and [float] of it is the float. *)
Lemma float_repr_number (x : pyfloat) :
  float_ok x = true ->
  exists m,
    float_repr x = number_text m /\ match_ok m /\
    (nm_frac m <> None \/ nm_exp m <> None) /\
    parse_float m = x.
Proof.
  intros Hok. apply float_ok_spec in Hok as [Hd Hshape].
  destruct x as [neg ds dp]. simpl in Hd, Hshape.
  destruct Hshape as [[-> ->] | (d & tl & -> & Hd0 & Hlast)].
  { exists (NumberMatch neg [48] (Some [48]) None).
    split; [by destruct neg |]. split; [| split; [by left | done]].
    match_ok_split; [done | by repeat constructor | by left | | done].
    split; [done | by repeat constructor]. }
  pose proof (digit_chars _ Hd) as HD.
  assert (Hhead : 48 + d <> 48) by lia.
  unfold float_repr. cbn [fl_neg fl_digits fl_decpt].
  rewrite length_map.
  set (D := map (N.add 48) (d :: tl)) in *.
  destruct ((dp <=? -4) || (16 <? dp))%Z eqn:Hexp.
  - (* exponent notation *)
    destruct (exp_repr_text (dp - 1)) as (es & Hes & Hesok & Hesv).
    rewrite Hes. change (1 <=? 0)%Z with false. cbv iota.
    destruct tl as [| d2 tl].
    + exists (NumberMatch neg [48 + d] None (Some ((dp - 1 <? 0)%Z, es))).
      split; [by destruct neg |].
      split.
      { match_ok_split; [done | done | right; simpl; congruence | done | exact Hesok]. }
      split; [by right |].
      erewrite parse_float_no_frac;
        [| reflexivity | apply exp_sign; exact Hesv
         | simpl map; replace (48 + d - 48) with d by lia; by apply strip_zeros_nonzero].
      rewrite strip_trailing_0 by done. f_equal. simpl. lia.
    + assert (Hn : (1 <? Z.of_nat (length (d :: d2 :: tl)))%Z = true)
        by (apply Z.ltb_lt; simpl; lia).
      rewrite Hn.
      exists (NumberMatch neg [48 + d] (Some (map (N.add 48) (d2 :: tl)))
                          (Some ((dp - 1 <? 0)%Z, es))).
      split; [by destruct neg |].
      apply Forall_cons in HD as [HD1 HD2].
      split.
      { match_ok_split;
          [done | by repeat constructor | right; simpl; congruence | | exact Hesok].
        split; [done | exact HD2]. }
      split; [by left |].
      erewrite parse_float_digits;
        [| reflexivity | apply digit_values | apply exp_sign; exact Hesv
         | simpl map; replace (48 + d - 48) with d by lia; by apply strip_zeros_nonzero].
      rewrite strip_trailing_0 by done. f_equal. simpl. lia.
  - (* positional notation *)
    apply orb_false_iff in Hexp as [H1 H2].
    apply Z.leb_gt in H1. apply Z.ltb_ge in H2.
    cbv iota. rewrite app_nil_r.
    destruct (Z.leb_spec dp 0) as [Hle | Hgt].
    + exists (NumberMatch neg [48] (Some (replicate (Z.to_nat (- dp)) 48 ++ D)) None).
      split; [by rewrite number_text_frac |].
      split.
      { match_ok_split; [done | by repeat constructor | by left | | done].
        split; [by destruct (Z.to_nat (- dp)) |].
        apply Forall_app. split; [| done]. by apply Forall_replicate. }
      split; [by left |].
      erewrite parse_float_digits with (k := S (Z.to_nat (- dp))) (ds := d :: tl);
        [| reflexivity | | reflexivity |].
      * rewrite strip_trailing_0 by done. f_equal. simpl length. lia.
      * rewrite map_app. unfold D. rewrite digit_values. reflexivity.
      * simpl map. change [48 - 48] with (replicate 1 0).
        assert (Hr : map (fun c : N => c - 48) (replicate (Z.to_nat (- dp)) 48)
                     = replicate (Z.to_nat (- dp)) 0) by (by rewrite map_replicate).
        rewrite Hr, app_assoc, <- replicate_add, strip_zeros_replicate.
        rewrite strip_zeros_nonzero by done. simpl. f_equal. lia.
    + destruct (Z.ltb_spec dp (Z.of_nat (length (d :: tl)))) as [Hlt | Hge].
      * exists (NumberMatch neg (take (Z.to_nat dp) D) (Some (drop (Z.to_nat dp) D)) None).
        split; [by rewrite number_text_frac |].
        assert (Hnat : (0 < Z.to_nat dp < length D)%nat)
          by (unfold D; rewrite length_map; lia).
        split.
        { match_ok_split.
          - destruct (Z.to_nat dp); [lia | done].
          - by apply Forall_take.
          - right. destruct (Z.to_nat dp); [lia |]. simpl. congruence.
          - split; [| by apply Forall_drop].
            intros Hnil. apply (f_equal length) in Hnil.
            rewrite length_drop in Hnil. change (length (@nil N)) with O in Hnil. lia.
          - done. }
        split; [by left |].
        erewrite parse_float_digits with (k := O) (ds := d :: tl);
          [| reflexivity | reflexivity | reflexivity |].
        -- rewrite strip_trailing_0 by done. f_equal.
           rewrite length_map, length_take. lia.
        -- rewrite <- map_app, take_drop. unfold D. rewrite digit_values.
           by apply strip_zeros_nonzero.
      * exists (NumberMatch neg (D ++ replicate (Z.to_nat (dp - Z.of_nat (length (d :: tl)))) 48)
                            (Some [48]) None).
        split; [by rewrite number_text_frac, <- app_assoc |].
        split.
        { match_ok_split; [done | | right; simpl; congruence | | done].
          - apply Forall_app. split; [done |]. by apply Forall_replicate.
          - split; [done | by repeat constructor]. }
        split; [by left |].
        erewrite parse_float_digits
          with (k := O)
               (ds := (d :: tl) ++ replicate (S (Z.to_nat (dp - Z.of_nat (length (d :: tl))))) 0);
          [| reflexivity | reflexivity | reflexivity |].
        -- rewrite strip_trailing by done. f_equal.
           rewrite length_map, length_app, length_replicate.
           unfold D. rewrite length_map. lia.
        -- rewrite map_app. unfold D. rewrite digit_values, map_replicate.
           change (map (fun c : N => c - 48) [48]) with (replicate 1 0).
           rewrite <- app_assoc, <- replicate_add, Nat.add_1_r.
           by apply strip_zeros_nonzero.
Qed.

(** ** Values: what the scanner reads in a document is the record *)

#[local] Arguments is_ws : simpl never.
#[local] Arguments value_start : simpl never.

Lemma skip_ws_stop (c : N) (t : list N) :
  is_ws c = false -> skip_ws (c :: t) = c :: t.
Proof. intros H. simpl. by rewrite H. Qed.

Lemma skip_ws_spaces (n : nat) (t : list N) :
  skip_ws (replicate n 32 ++ t) = skip_ws t.
Proof. induction n as [| n IH]; simpl; [done |]. exact IH. Qed.

Lemma skip_ws_newline_indent (level : nat) (t : list N) :
  skip_ws ([NEWLINE] ++ indentation level ++ t) = skip_ws t.
Proof. unfold indentation. simpl. apply skip_ws_spaces. Qed.

Lemma value_start_spec (c : N) :
  value_start c = true ->
  is_ws c = false /\ c <> 93 /\ c <> 125 /\ c <> 44 /\ c <> 58.
Proof.
  unfold value_start, is_digit. rewrite !orb_true_iff, andb_true_iff, !N.eqb_eq, !N.leb_le.
  intros H. unfold is_ws.
  assert (Hc : (48 <= c /\ c <= 57) \/ c = 45 \/ c = 34 \/ c = 123 \/ c = 91 \/
               c = 110 \/ c = 116 \/ c = 102) by (unfold QUOTE in H; tauto).
  clear H. split.
  - rewrite !orb_false_iff, !N.eqb_neq. lia.
  - lia.
Qed.

Lemma number_text_head (m : number_match) :
  match_ok m ->
  exists c t, number_text m = c :: t /\ (is_digit c = true \/ c = 45).
Proof.
  intros ([Hne Hd] & _). unfold number_text.
  destruct (nm_neg m); [eexists _, _; split; [reflexivity | by right] |].
  destruct (nm_int m) as [| c ds]; [done |].
  apply Forall_cons in Hd as [Hc _]. eexists _, _. split; [reflexivity | by left].
Qed.

Lemma int_repr_head (z : Z) :
  exists c t, int_repr z = c :: t /\ (is_digit c = true \/ c = 45).
Proof.
  unfold int_repr. destruct z as [| p | p]; simpl.
  - eexists _, _. split; [reflexivity | by left].
  - destruct (pos_to_uint_head p) as (c & ds & -> & Hc & _).
    eexists _, _. split; [reflexivity | by left].
  - eexists _, _. split; [reflexivity | by right].
Qed.

Lemma number_start (c : N) :
  is_digit c = true \/ c = 45 -> value_start c = true.
Proof.
  unfold value_start. intros [-> | ->]; [done |]. reflexivity.
Qed.

(** Every document starts with a character a value can start with. *)
Lemma pretty_head (v : pyval) (level : nat) :
  json_like v = true ->
  exists c t, pretty level v = c :: t /\ value_start c = true.
Proof.
  destruct v as [| [] | z | x | s | [| v l] | [| kv d] | |]; intros H; try done;
    try (eexists _, _; split; [reflexivity | reflexivity]).
  - destruct (int_repr_head z) as (c & t & E & Hc).
    exists c, t. split; [exact E | by apply number_start].
  - destruct (float_repr_number x H) as (m & E & Hm & _).
    destruct (number_text_head m Hm) as (c & t & E' & Hc).
    exists c, t. split; [simpl; congruence | by apply number_start].
Qed.

(** A number: the scanner goes to NUMBER_RE when the text starts with a
    digit or a minus. *)
Lemma scan_once_number (fuel : nat) (c : N) (t : list N) :
  is_digit c = true \/ c = 45 ->
  scan_once (S fuel) (c :: t) =
    match match_number (c :: t) with
    | Some (m, r) =>
        match nm_frac m, nm_exp m with
        | None, None => Some (PyInt (parse_int (nm_neg m) (nm_int m)), r)
        | _, _ => Some (PyFloat (parse_float m), r)
        end
    | None => None
    end.
Proof.
  intros Hc.
  assert (H : c <> QUOTE /\ c <> 123 /\ c <> 91 /\ c <> 110 /\ c <> 116 /\ c <> 102).
  { destruct Hc as [Hc | ->]; [| done]. unfold is_digit in Hc.
    apply andb_true_iff in Hc as [H1 H2]. apply N.leb_le in H1, H2.
    unfold QUOTE. lia. }
  destruct H as (H1 & H2 & H3 & H4 & H5 & H6).
  apply N.eqb_neq in H1, H2, H3. cbn [scan_once]. rewrite H1, H2, H3.
  assert (Hp : forall w rest, w = 110 \/ w = 116 \/ w = 102 ->
                strip_prefix (w :: rest) (c :: t) = None).
  { intros w rest Hw. simpl.
    assert (Hwc : (w =? c) = false) by (apply N.eqb_neq; lia). by rewrite Hwc. }
  change (str "null") with (110 :: str "ull").
  change (str "true") with (116 :: str "rue").
  change (str "false") with (102 :: str "alse").
  rewrite !Hp by lia. done.
Qed.

Lemma join_with_cons (sep x : list N) (xs : list (list N)) :
  join_with sep (x :: xs) = x ++ concat (map (fun y => sep ++ y) xs).
Proof.
  revert x. induction xs as [| y xs IH]; intros x.
  - simpl. by rewrite app_nil_r.
  - change (join_with sep (x :: y :: xs)) with (x ++ sep ++ join_with sep (y :: xs)).
    rewrite IH. simpl. by rewrite <- app_assoc.
Qed.

Lemma skip_ws_newline_indent' (level : nat) (t : list N) :
  skip_ws (NEWLINE :: indentation level ++ t) = skip_ws t.
Proof. apply skip_ws_newline_indent. Qed.

Lemma number_end_newline (t : list N) : number_end (NEWLINE :: t).
Proof. done. Qed.

Lemma number_end_comma (t : list N) : number_end (44 :: t).
Proof. done. Qed.

(** The loop of JSONArray over the items of a list, one to a line. *)
Lemma array_items_text (scan : list N -> option (pyval * list N)) (level : nat)
    (l : list pyval) (x : pyval) (rest : list N) (n : nat) :
  Forall (fun a => json_like a = true /\
            forall rest', number_end rest' ->
              scan (pretty (S level) a ++ rest') = Some (a, rest')) (x :: l) ->
  (length (x :: l) <= n)%nat ->
  array_items scan n
    (pretty (S level) x ++
     concat (map (fun y => (str "," ++ [NEWLINE] ++ indentation (S level)) ++ y)
                 (map (pretty (S level)) l)) ++
     [NEWLINE] ++ indentation level ++ [93] ++ rest)
  = Some (x :: l, rest).
Proof.
  revert x n. induction l as [| b l IH]; intros x n Hall Hn.
  - destruct n as [| n]; [simpl in Hn; lia |].
    apply Forall_cons in Hall as [[_ Hx] _].
    cbn [array_items map concat app]. rewrite Hx by apply number_end_newline.
    by rewrite skip_ws_newline_indent'.
  - destruct n as [| n]; [simpl in Hn; lia |].
    apply Forall_cons in Hall as [[_ Hx] Hall].
    pose proof Hall as Hall'. apply Forall_cons in Hall' as [[Hb _] _].
    destruct (pretty_head b (S level) Hb) as (c & t & Ec & Hc).
    apply value_start_spec in Hc as (Hws & _).
    cbn [array_items map concat]. rewrite <- !app_assoc.
    change (str "," ++ ?r) with (44 :: r).
    rewrite Hx by apply number_end_comma.
    rewrite skip_ws_stop by done.
    change (44 =? 93) with false. change (44 =? 44) with true. cbv iota.
    rewrite skip_ws_newline_indent.
    assert (Hskip : forall r, skip_ws (pretty (S level) b ++ r) = pretty (S level) b ++ r).
    { intros r. rewrite Ec. simpl app. by apply skip_ws_stop. }
    rewrite Hskip, IH; [done | done | simpl in *; lia].
Qed.

(** The loop of JSONObject over the items of a dict, entered after the
    quote that opens the first key. *)
Lemma object_pairs_text (scan : list N -> option (pyval * list N)) (level : nat)
    (d : list (list N * pyval)) (k : list N) (v : pyval) (rest : list N) (n : nat) :
  Forall (fun kv => text_ok (fst kv) = true /\ json_like (snd kv) = true /\
            forall rest', number_end rest' ->
              scan (pretty (S level) (snd kv) ++ rest') = Some (snd kv, rest'))
         ((k, v) :: d) ->
  (length ((k, v) :: d) <= n)%nat ->
  object_pairs scan n
    (concat (map escape_char k) ++ QUOTE :: str ": " ++ pretty (S level) v ++
     concat (map (fun y => (str "," ++ [NEWLINE] ++ indentation (S level)) ++ y)
                 (map (fun kv => encode_basestring_ascii (fst kv) ++ str ": " ++
                                 pretty (S level) (snd kv)) d)) ++
     [NEWLINE] ++ indentation level ++ [125] ++ rest)
  = Some ((k, v) :: d, rest).
Proof.
  revert k v n. induction d as [| [k' v'] d IH]; intros k v n Hall Hn.
  - destruct n as [| n]; [simpl in Hn; lia |].
    apply Forall_cons in Hall as [(Hk & Hv & Hx) _]. simpl in Hk, Hv, Hx.
    destruct (pretty_head v (S level) Hv) as (c & t & Ec & Hc).
    apply value_start_spec in Hc as (Hws & _).
    cbn [object_pairs map concat app]. rewrite scanstring_escaped by done.
    change (str ": " ++ ?r) with (58 :: 32 :: r).
    rewrite skip_ws_stop by done. change (58 =? 58) with true. cbv iota.
    change (skip_ws (32 :: ?r)) with (skip_ws r).
    assert (Hskip : forall r, skip_ws (pretty (S level) v ++ r) = pretty (S level) v ++ r).
    { intros r. rewrite Ec. simpl app. by apply skip_ws_stop. }
    rewrite Hskip, Hx by apply number_end_newline.
    by rewrite skip_ws_newline_indent'.
  - destruct n as [| n]; [simpl in Hn; lia |].
    apply Forall_cons in Hall as [(Hk & Hv & Hx) Hall]. simpl in Hk, Hv, Hx.
    destruct (pretty_head v (S level) Hv) as (c & t & Ec & Hc).
    apply value_start_spec in Hc as (Hws & _).
    cbn [object_pairs map concat fst snd]. rewrite <- !app_assoc.
    rewrite scanstring_escaped by done.
    change (str ": " ++ ?r) with (58 :: 32 :: r).
    rewrite skip_ws_stop by done. change (58 =? 58) with true. cbv iota.
    change (skip_ws (32 :: ?r)) with (skip_ws r).
    assert (Hskip : forall r, skip_ws (pretty (S level) v ++ r) = pretty (S level) v ++ r).
    { intros r. rewrite Ec. simpl app. by apply skip_ws_stop. }
    change (str "," ++ ?r) with (44 :: r).
    rewrite Hskip, Hx by apply number_end_comma.
    rewrite skip_ws_stop by done.
    change (44 =? 125) with false. change (44 =? 44) with true. cbv iota.
    rewrite skip_ws_newline_indent.
    rewrite encode_basestring_ascii_app.
    rewrite skip_ws_stop by done. change (QUOTE =? QUOTE) with true. cbv iota.
    rewrite IH; [done | done | simpl in *; lia].
Qed.

Lemma list_sum_bound {A} (f : A -> nat) (l : list A) (a : A) :
  a ∈ l -> (f a <= list_sum (map f l))%nat.
Proof.
  induction l as [| b l IH]; intros Hin; [by apply elem_of_nil in Hin |].
  apply elem_of_cons in Hin as [-> | Hin]; simpl; [lia |].
  specialize (IH Hin). lia.
Qed.

Lemma list_sum_length {A} (f : A -> nat) (l : list A) :
  (length l <= list_sum (map (fun a => S (f a)) l))%nat.
Proof. induction l as [| b l IH]; simpl; lia. Qed.

(** [dict(pairs)] of pairs with different keys is the pairs. *)
Lemma dict_set_fresh (d : list (list N * pyval)) (k : list N) (v : pyval) :
  k ∉ map fst d -> dict_set d k v = d ++ [(k, v)].
Proof.
  induction d as [| [k' v'] d IH]; intros Hk; simpl; [done |].
  simpl in Hk. apply not_elem_of_cons in Hk as [Hne Hk].
  rewrite bool_decide_eq_false_2 by done. by rewrite IH.
Qed.

Lemma dict_of_pairs_nodup (pairs : list (list N * pyval)) :
  NoDup (map fst pairs) -> dict_of_pairs pairs = pairs.
Proof.
  unfold dict_of_pairs.
  assert (H : forall acc, NoDup (map fst (acc ++ pairs)) ->
            fold_left (fun d kv => dict_set d (fst kv) (snd kv)) pairs acc = acc ++ pairs).
  { induction pairs as [| [k v] pairs IH]; intros acc Hnd; simpl.
    - by rewrite app_nil_r.
    - rewrite dict_set_fresh.
      + rewrite IH; rewrite <- app_assoc; done.
      + rewrite map_app in Hnd. apply NoDup_app in Hnd as (_ & Hdis & _).
        intros Hin. apply (Hdis k Hin). simpl. left. }
  intros Hnd. by apply (H []).
Qed.

Lemma json_like_list (l : list pyval) :
  json_like (PyList l) = true -> Forall (fun a => json_like a = true) l.
Proof. simpl. apply forallb_Forall_true. Qed.

Lemma json_like_dict (d : list (list N * pyval)) :
  json_like (PyDict d) = true ->
  Forall (fun kv => text_ok (fst kv) = true /\ json_like (snd kv) = true) d /\
  NoDup (map fst d).
Proof.
  simpl. intros H. apply andb_true_iff in H as [H1 H2].
  apply bool_decide_eq_true in H2. split; [| done].
  apply forallb_Forall_true in H1. eapply Forall_impl; [exact H1 |].
  intros kv Hkv. by apply andb_true_iff in Hkv.
Qed.

(** The scanner reads from the document of a record the record, and
    stops where the document ends. *)
Lemma scan_once_pretty (v : pyval) :
  forall (level : nat) (rest : list N) (fuel : nat),
    json_like v = true -> (nodes v <= fuel)%nat -> number_end rest ->
    scan_once fuel (pretty level v ++ rest) = Some (v, rest).
Proof.
  induction v as [| b | z | x | s | l IH | d IH | |] using pyval_ind;
    intros level rest fuel Hv Hfuel Hrest; try done;
    (destruct fuel as [| fuel]; [simpl in Hfuel; lia |]).
  - reflexivity.
  - by destruct b.
  - destruct (int_repr_head z) as (c & t & E & Hc).
    destruct (match_number_int z rest Hrest) as (neg & ds & Hm & Hp).
    cbn [pretty]. rewrite E in Hm |- *. simpl app in *.
    by rewrite scan_once_number, Hm, <- Hp.
  - destruct (float_repr_number x Hv) as (m & E & Hm & Hfe & Hp).
    destruct (number_text_head m Hm) as (c & t & E' & Hc).
    pose proof (match_number_text m rest Hm Hrest) as Hmn.
    cbn [pretty]. rewrite E. rewrite E' in Hmn |- *. simpl app in *.
    rewrite scan_once_number, Hmn, Hp by done.
    destruct (nm_frac m), (nm_exp m); try done. by destruct Hfe.
  - cbn [pretty]. rewrite encode_basestring_ascii_app.
    cbn [scan_once]. change (QUOTE =? QUOTE) with true. cbv iota.
    by rewrite scanstring_escaped.
  - destruct l as [| x l]; [reflexivity |].
    apply json_like_list in Hv.
    pose proof (proj1 (Forall_cons _ _ _) Hv) as [Hx _].
    destruct (pretty_head x (S level) Hx) as (c & t & Ec & Hc).
    apply value_start_spec in Hc as (Hws & H93 & _).
    change (pretty level (PyList (x :: l))) with
      (str "[" ++ [NEWLINE] ++ indentation (S level) ++
       join_with (str "," ++ [NEWLINE] ++ indentation (S level))
                 (map (pretty (S level)) (x :: l)) ++
       [NEWLINE] ++ indentation level ++ str "]").
    rewrite map_cons, join_with_cons, <- !app_assoc.
    change (str "[" ++ ?r) with (91 :: r). cbn [scan_once].
    change (91 =? QUOTE) with false. change (91 =? 123) with false.
    change (91 =? 91) with true. cbv iota.
    rewrite skip_ws_newline_indent.
    pose proof (array_items_text (scan_once fuel) level l x rest fuel) as Hitems.
    rewrite Ec, <- app_comm_cons.
    rewrite skip_ws_stop by done.
    apply N.eqb_neq in H93. rewrite H93.
    rewrite app_comm_cons, <- Ec.
    change (str "]" ++ rest) with ([93] ++ rest).
    rewrite Hitems; [done | |].
    + rewrite Forall_forall in IH, Hv |- *. intros a Ha.
      split; [by apply Hv |]. intros rest' Hr. apply IH; [done | by apply Hv | | done].
      cbn [nodes] in Hfuel.
      pose proof (list_sum_bound (fun a => S (nodes a)) (x :: l) a Ha). simpl in *. lia.
    + cbn [nodes] in Hfuel.
      pose proof (list_sum_length nodes (x :: l)). simpl in *. lia.
  - destruct d as [| [k x] d]; [reflexivity |].
    apply json_like_dict in Hv as [Hv Hnd].
    change (pretty level (PyDict ((k, x) :: d))) with
      (str "{" ++ [NEWLINE] ++ indentation (S level) ++
       join_with (str "," ++ [NEWLINE] ++ indentation (S level))
                 (map (fun kv => encode_basestring_ascii (fst kv) ++ str ": " ++
                                 pretty (S level) (snd kv)) ((k, x) :: d)) ++
       [NEWLINE] ++ indentation level ++ str "}").
    rewrite map_cons, join_with_cons, <- !app_assoc. cbn [fst snd].
    change (str "{" ++ ?r) with (123 :: r). cbn [scan_once].
    change (123 =? QUOTE) with false. change (123 =? 123) with true. cbv iota.
    rewrite skip_ws_newline_indent, encode_basestring_ascii_app.
    rewrite skip_ws_stop by done.
    change (QUOTE =? 125) with false. change (QUOTE =? QUOTE) with true. cbv iota.
    change (str "}" ++ rest) with ([125] ++ rest).
    rewrite <- ?app_assoc.
    rewrite (object_pairs_text (scan_once fuel) level d k x rest fuel).
    + by rewrite dict_of_pairs_nodup.
    + rewrite Forall_forall in IH, Hv |- *. intros kv Hkv.
      destruct (Hv kv Hkv) as [Hk Hj]. split; [done |]. split; [done |].
      intros rest' Hr. apply IH; [done | done | | done].
      cbn [nodes] in Hfuel.
      pose proof (list_sum_bound (fun kv => S (nodes (snd kv))) ((k, x) :: d) kv Hkv).
      simpl in *. lia.
    + cbn [nodes] in Hfuel.
      pose proof (list_sum_length (fun kv => nodes (snd kv)) ((k, x) :: d)). simpl in *. lia.
Qed.

Lemma sum_le_join {A} (f : A -> nat) (g : A -> list N) (sep : list N) (l : list A) :
  sep <> [] ->
  Forall (fun a => (f a <= length (g a))%nat) l ->
  (list_sum (map (fun a => S (f a)) l) <= S (length (join_with sep (map g l))))%nat.
Proof.
  intros Hsep Hl. induction Hl as [| a l Ha Hl IH]; [simpl; lia |].
  destruct l as [| b l]; [simpl in *; lia |].
  change (join_with sep (map g (a :: b :: l)))
    with (g a ++ sep ++ join_with sep (map g (b :: l))).
  rewrite !length_app. destruct sep as [| c sep]; [done |].
  simpl length in *. simpl list_sum in *. simpl map in *. lia.
Qed.

Lemma float_repr_nonempty (x : pyfloat) :
  float_ok x = true -> (1 <= length (float_repr x))%nat.
Proof.
  intros H. destruct (float_repr_number x H) as (m & -> & Hm & _).
  destruct (number_text_head m Hm) as (c & t & -> & _). simpl. lia.
Qed.

(** The length of a document is fuel enough to scan it. *)
Lemma nodes_le_length (v : pyval) (level : nat) :
  json_like v = true -> (nodes v <= length (pretty level v))%nat.
Proof.
  revert level. induction v as [| b | z | x | s | l IH | d IH | |] using pyval_ind;
    intros level Hv; try done.
  - simpl. lia.
  - destruct b; simpl; lia.
  - destruct (int_repr_head z) as (c & t & E & _). cbn [pretty nodes]. rewrite E. simpl. lia.
  - by apply float_repr_nonempty.
  - cbn [pretty nodes]. unfold encode_basestring_ascii. simpl. lia.
  - destruct l as [| x l]; [simpl; lia |].
    apply json_like_list in Hv.
    change (pretty level (PyList (x :: l))) with
      (str "[" ++ [NEWLINE] ++ indentation (S level) ++
       join_with (str "," ++ [NEWLINE] ++ indentation (S level))
                 (map (pretty (S level)) (x :: l)) ++
       [NEWLINE] ++ indentation level ++ str "]").
    cbn [nodes]. rewrite !length_app.
    pose proof (sum_le_join nodes (pretty (S level))
                  (str "," ++ [NEWLINE] ++ indentation (S level)) (x :: l)) as Hs.
    change (length (str "[")) with 1%nat. change (length [NEWLINE]) with 1%nat.
    change (length (str "]")) with 1%nat.
    enough (list_sum (map (fun a => S (nodes a)) (x :: l))
            <= S (length (join_with (str "," ++ [NEWLINE] ++ indentation (S level))
                            (map (pretty (S level)) (x :: l)))))%nat by lia.
    apply Hs; [done |]. rewrite Forall_forall in IH, Hv |- *.
    intros a Ha. apply IH; [done | by apply Hv].
  - destruct d as [| kv d]; [simpl; lia |].
    apply json_like_dict in Hv as [Hv _].
    change (pretty level (PyDict (kv :: d))) with
      (str "{" ++ [NEWLINE] ++ indentation (S level) ++
       join_with (str "," ++ [NEWLINE] ++ indentation (S level))
                 (map (fun kv => encode_basestring_ascii (fst kv) ++ str ": " ++
                                 pretty (S level) (snd kv)) (kv :: d)) ++
       [NEWLINE] ++ indentation level ++ str "}").
    cbn [nodes]. rewrite !length_app.
    pose proof (sum_le_join (fun kv => nodes (snd kv))
                  (fun kv => encode_basestring_ascii (fst kv) ++ str ": " ++
                             pretty (S level) (snd kv))
                  (str "," ++ [NEWLINE] ++ indentation (S level)) (kv :: d)) as Hs.
    change (length (str "{")) with 1%nat. change (length [NEWLINE]) with 1%nat.
    change (length (str "}")) with 1%nat.
    enough (list_sum (map (fun kv => S (nodes (snd kv))) (kv :: d))
            <= S (length (join_with (str "," ++ [NEWLINE] ++ indentation (S level))
                            (map (fun kv => encode_basestring_ascii (fst kv) ++ str ": " ++
                                            pretty (S level) (snd kv)) (kv :: d)))))%nat by lia.
    apply Hs; [done |]. rewrite Forall_forall in IH, Hv |- *.
    intros a Ha. rewrite !length_app.
    specialize (IH a Ha (S level) (proj2 (Hv a Ha))). lia.
Qed.

(** [json.loads] of the document of a record is the record. *)
Lemma json_loads_pretty (data : list (list N * pyval)) :
  valid_record data = true ->
  json_loads (pretty 0 (PyDict data)) = Some (PyDict data).
Proof.
  intros Hv. unfold valid_record in Hv.
  pose proof (nodes_le_length _ 0 Hv) as Hn.
  pose proof (scan_once_pretty (PyDict data) 0 [] (S (length (pretty 0 (PyDict data))))
                Hv ltac:(lia) I) as Hscan.
  rewrite app_nil_r in Hscan.
  destruct (pretty_head _ 0 Hv) as (c & t & Ec & Hc).
  assert (H123 : c = 123).
  { destruct data; simpl in Ec; by injection Ec as <- _. }
  subst c. unfold json_loads. rewrite Ec in Hscan |- *.
  rewrite skip_ws_stop by done. simpl length in Hscan |- *. by rewrite Hscan.
Qed.

(** C1: after a call that returned, reading the file at the joined path
    and parsing it gives the record back, for every record of the data
    model: string keys, each once, text that is Unicode scalar values,
    finite floats. *)
Theorem write_json_log_round_trip (data : list (list N * pyval))
    (output_dir filename : list N) (w w' : world) (r : pyval) :
  valid_record data = true ->
  write_json_log data output_dir filename w = (Ok r, w') ->
  json_load_path (os_path_join output_dir filename) w' = (Ok (PyDict data), w').
Proof.
  intros Hv H. pose proof (write_json_log_read _ _ _ _ _ _ H) as Hread.
  apply write_json_log_inv in H as (w1 & f & _ & _ & Henc & _ & _).
  unfold json_load_path. rewrite (bind_run _ _ _ _ _ Hread).
  unfold json_iterencode. rewrite (iterencode_pretty _ _ Henc).
  by rewrite json_loads_pretty.
Qed.

Lemma write_json_log_round_trip_witness :
  exists w',
    write_json_log sample_record (str "logs/run1") (str "a.json") w_home = (Ok PyNone, w') /\
    json_load_path (str "logs/run1/a.json") w' = (Ok (PyDict sample_record), w').
Proof.
  eexists. split; [vm_compute; reflexivity |].
  exact (write_json_log_round_trip sample_record (str "logs/run1") (str "a.json")
           w_home _ PyNone eq_refl eq_refl).
Defined.
